(** * creditagricole_particuliers.operations: paginated retrieval and
      record/replay of bank operations

    A shallow embedding of [operations.py].  The two classes of the module,
    [DeferredOperations] and [Operations], fill [self.list_operations] from a
    page fetched either from the live endpoint ([requests.get]) or from a
    fixture ([session.mock_config.read_json_mock]).  Everything the module
    reaches outside itself is kept: the calls are recorded, in order, in a
    trace of events, and their results come from an environment [Env].

    Python exceptions are modelled by a sum: a computation ends in [inl e]
    (the exception [e] propagates) or in [inr v]; the state it built up to the
    point of failure is kept next to it, as the object's attributes are. *)

From Stdlib Require Import ZArith QArith List String Ascii Bool Lia.
From Stdlib Require Import DecimalString.
Import ListNotations.

Set Warnings "-register-all".

Local Open Scope string_scope.
Local Open Scope Z_scope.

(** ** Python values *)

(** [int] and [float]; a float is kept as a rational. *)
Inductive number : Type :=
| Int (n : Z)
| Float (q : Q).

(** What [json.loads] returns: [None], [bool], numbers, [str], [list], and
    [dict] as the list of its bindings (one per key, as in a dict). *)
Inductive json : Type :=
| JNull
| JBool (b : bool)
| JNum (n : number)
| JStr (s : string)
| JArr (l : list json)
| JObj (kv : list (string * json)).

(** The exceptions the module can end with. *)
Inductive exn : Type :=
| Exception (msg : string)      (* raise Exception("...") *)
| KeyError (key : string)       (* d[key] on a dict without key *)
| TypeError                     (* subscript/iteration of the wrong type *)
| ValueError                    (* strptime, time.sleep of a negative *)
| JSONDecodeError               (* json.loads *)
| RecursionError                (* call stack exhausted *)
| OtherError (name : string).   (* raised by a collaborator *)

Definition result (A : Type) : Type := (exn + A)%type.

(** [k in d] *)
Fixpoint assoc (k : string) (kv : list (string * json)) : option json :=
  match kv with
  | [] => None
  | (k', v) :: kv' => if String.eqb k k' then Some v else assoc k kv'
  end.

Definition py_in (k : string) (d : json) : result bool :=
  match d with
  | JObj kv => inr (match assoc k kv with Some _ => true | None => false end)
  | JArr l => inr (existsb (fun v => match v with
                                      | JStr s => String.eqb k s
                                      | _ => false
                                      end) l)
  | JStr s => inr (match String.index 0 k s with Some _ => true | None => false end)
  | _ => inl TypeError
  end.

(** [d[k]] for a str key [k] *)
Definition py_getitem (d : json) (k : string) : result json :=
  match d with
  | JObj kv => match assoc k kv with
               | Some v => inr v
               | None => inl (KeyError k)
               end
  | _ => inl TypeError
  end.

(** The characters of a str, as Python iterates them. *)
Fixpoint chars (s : string) : list json :=
  match s with
  | EmptyString => []
  | String c s' => JStr (String c EmptyString) :: chars s'
  end.

(** [for x in v]: the elements of a list, the characters of a str, the keys
    of a dict; anything else is not iterable. *)
Definition py_iter (v : json) : result (list json) :=
  match v with
  | JArr l => inr l
  | JStr s => inr (chars s)
  | JObj kv => inr (map (fun p => JStr (fst p)) kv)
  | _ => inl TypeError
  end.

(** ["%s" % n] for an int *)
Definition str_of_int (n : Z) : string := NilZero.string_of_int (Z.to_int n).

(** The double quote character. *)
Definition dquote : string := String (ascii_of_nat 34) EmptyString.

(** ** The session and the requests *)

(** [session.mock_config]: the two suffixes the module reads. *)
Record MockConfig : Type := {
  useMockSuffix : string;
  writeMockSuffix : string
}.

(** The attributes of the [Authenticator] session the module reads. *)
Record Session : Type := {
  url : string;
  regional_bank_url : string;
  ssl_verify : bool;
  cookies : list (string * string);
  useMocks : bool;
  writeMocks : bool;
  mock_config : MockConfig
}.

(** A request URL.  The source builds it by appending text to [url]; here
    the text up to the question mark is [resource] and every appended
    [name=value] is one entry of [query], in the order of the appends.
    [url_text] is the string the source holds. *)
Record Url : Type := {
  resource : string;
  query : list (string * string)
}.

Fixpoint query_text (sep : string) (q : list (string * string)) : string :=
  match q with
  | [] => EmptyString
  | (k, v) :: q' => sep ++ k ++ "=" ++ v ++ query_text "&" q'
  end.

Definition url_text (u : Url) : string := resource u ++ query_text "?" (query u).

(** The value of a query parameter, when the URL has it. *)
Fixpoint param (k : string) (q : list (string * string)) : option string :=
  match q with
  | [] => None
  | (k', v) :: q' => if String.eqb k k' then Some v else param k q'
  end.

(** [r.status_code] and [r.text] *)
Record Response : Type := {
  status_code : Z;
  text : string
}.

(** What [write_json_mock] is handed: a str, or a decoded object. *)
Inductive MockData : Type :=
| MockText (s : string)
| MockObject (v : json).

(** The [sleep] argument: [None], a number, or any other object. *)
Inductive SleepArg : Type :=
| SleepNone
| SleepNumber (d : number)
| SleepOther.

(** The calls that leave the module, with what they returned. *)
Inductive Event : Type :=
| EvReadMock (name : string) (r : result string)
| EvWriteMock (name : string) (data : MockData)
| EvGet (u : Url) (verify : bool) (ck : list (string * string))
        (r : result Response)
| EvSleep (d : number).

(** The collaborators.  [json_loads] is [json.loads], [quote] is
    [requests.utils.quote], [timestamp] is
    [int(datetime.strptime(s, "%Y-%m-%d").timestamp())] in the local time
    zone, [read_json_mock] is the fixture store of the session, and
    [requests_get] is the remote server, which may answer by what it was
    asked before (the trace so far). *)
Record Env : Type := {
  json_loads : string -> result json;
  quote : string -> string;
  timestamp : string -> result Z;
  read_json_mock : string -> result string;
  requests_get : list Event -> Url -> result Response
}.

(** ** Operation *)

(** [class Operation]: the decoded entry and the three fields read from it. *)
Record Operation : Type := {
  descr : json;
  libelleOp : json;
  dateOp : json;
  montantOp : json
}.

(** [Operation.__init__] *)
Definition Operation_init (d : json) : result Operation :=
  match py_getitem d "libelleOperation" with
  | inl e => inl e
  | inr l =>
    match py_getitem d "dateOperation" with
    | inl e => inl e
    | inr dt =>
      match py_getitem d "montant" with
      | inl e => inl e
      | inr m => inr {| descr := d; libelleOp := l; dateOp := dt; montantOp := m |}
      end
    end
  end.

(** ** The monad of a retrieval *)

(** What a call of [get_operations] changes: the list of the object and the
    calls made so far. *)
Record State : Type := {
  list_operations : list Operation;
  trace : list Event
}.

Definition M (A : Type) : Type := State -> result A * State.

Definition ret {A : Type} (a : A) : M A := fun s => (inr a, s).

Definition raise {A : Type} (e : exn) : M A := fun s => (inl e, s).

Definition bind {A B : Type} (c : M A) (k : A -> M B) : M B :=
  fun s => match c s with
           | (inl e, s') => (inl e, s')
           | (inr a, s') => k a s'
           end.

Declare Scope retrieval_scope.
Delimit Scope retrieval_scope with retrieval.
Notation "x <- c ;; k" := (bind c (fun x => k))
  (at level 61, c at next level, right associativity) : retrieval_scope.
Notation "c ;; k" := (bind c (fun _ => k))
  (at level 61, right associativity) : retrieval_scope.
Local Open Scope retrieval_scope.

(** A pure step that may raise. *)
Definition lift {A : Type} (r : result A) : M A := fun s => (r, s).

(** A call is added at the end of the trace. *)
Definition log (s : State) (ev : Event) : State :=
  {| list_operations := list_operations s; trace := trace s ++ [ev] |}.

Definition emit (ev : Event) : M unit := fun s => (inr tt, log s ev).

(** [self.list_operations.append(o)] *)
Definition append_operation (o : Operation) : M unit :=
  fun s => (inr tt, {| list_operations := list_operations s ++ [o];
                       trace := trace s |}).

(** [for x in l: body(x)] *)
Fixpoint for_each {A : Type} (l : list A) (body : A -> M unit) : M unit :=
  match l with
  | [] => ret tt
  | x :: l' => body x ;; for_each l' body
  end.

(** [time.sleep(d)]: a negative length raises [ValueError].  A length
    too large for the platform clock raises [OverflowError] in Python;
    that bound is not part of this definition. *)
Definition negative (d : number) : bool :=
  match d with
  | Int n => n <? 0
  | Float q => negb (Qle_bool 0 q)
  end.

Definition time_sleep (d : number) : M unit :=
  if negative d then raise ValueError else emit (EvSleep d).

(** ** The two retrievals *)

(** The page size when [limit] is not given. *)
Definition default_limit : Z := 30.

(** The attributes of a [DeferredOperations] object set by [__init__]. *)
Record DeferredSelf : Type := {
  d_session : Session;
  d_compteIdx : string;
  d_grandeFamilleCode : string;
  d_carteIdx : string
}.

(** The attributes of an [Operations] object set by [__init__]. *)
Record OperationsSelf : Type := {
  session : Session;
  compteIdx : string;
  grandeFamilleCode : string;
  date_start : string;
  date_stop : string
}.

(** The text put around the fixture content on the replay path. *)
Definition wrap_listeOperations (data : string) : string :=
  "{ " ++ dquote ++ "listeOperations" ++ dquote ++ ": " ++ data ++ "}".

Section Retrieval.

Variable env : Env.

(** [session.mock_config.read_json_mock(name)] *)
Definition call_read_json_mock (name : string) : M string :=
  let r := read_json_mock env name in
  emit (EvReadMock name r) ;; lift r.

(** [session.mock_config.write_json_mock(name, data)] *)
Definition call_write_json_mock (name : string) (data : MockData) : M unit :=
  emit (EvWriteMock name data).

(** [requests.get(url=url, verify=session.ssl_verify, cookies=session.cookies)] *)
Definition call_requests_get (ss : Session) (u : Url) : M Response :=
  fun s =>
    let r := requests_get env (trace s) u in
    (emit (EvGet u (ssl_verify ss) (cookies ss) r) ;; lift r) s.

(** [Exception("... %s - %s" % (r.status_code, r.text))] *)
Definition request_error (prefix : string) (r : Response) : exn :=
  Exception (prefix ++ str_of_int (status_code r) ++ " - " ++ text r).

(** *** DeferredOperations *)

Definition deferred_mock_file_base (self : DeferredSelf) : string :=
  "card-" ++ d_carteIdx self ++ "_operations".

Definition deferred_url (self : DeferredSelf) : Url :=
  let ss := d_session self in
  {| resource := url ss ++ "/" ++ regional_bank_url ss
                 ++ "/particulier/operations/synthese/detail-comptes/"
                 ++ "jcr:content.n3.operations.encours.carte.debit.differe.json";
     query := [("grandeFamilleCode", d_grandeFamilleCode self);
               ("compteIdx", d_compteIdx self);
               ("carteIdx", d_carteIdx self)] |}.

(** The fixture read (line 82) and the fixture written (line 96). *)
Definition deferred_use_mock_file (self : DeferredSelf) : string :=
  deferred_mock_file_base self ++ "_"
  ++ useMockSuffix (mock_config (d_session self)) ++ ".json".

Definition deferred_write_mock_file (self : DeferredSelf) : string :=
  deferred_mock_file_base self ++ "_"
  ++ writeMockSuffix (mock_config (d_session self)) ++ ".json".

(** [DeferredOperations.get_operations] *)
Definition deferred_get_operations (self : DeferredSelf) : M unit :=
  let ss := d_session self in
  data <- (if useMocks ss then
             call_read_json_mock (deferred_use_mock_file self)
           else
             r <- call_requests_get ss (deferred_url self) ;;
             if negb (status_code r =? 200) then
               raise (request_error "[error] get deferred operations: " r)
             else ret (text r)) ;;
  (if writeMocks ss then
     call_write_json_mock (deferred_write_mock_file self) (MockText data)
   else ret tt) ;;
  v <- lift (json_loads env data) ;;
  ops <- lift (py_iter v) ;;
  for_each ops (fun op => o <- lift (Operation_init op) ;; append_operation o).

(** *** Operations *)

Definition mock_file_base (self : OperationsSelf) : string :=
  "account-" ++ grandeFamilleCode self ++ "-" ++ compteIdx self ++ "_operations".

(** The fixture read (line 179) and the fixture written (line 203). *)
Definition use_mock_file (self : OperationsSelf) : string :=
  mock_file_base self ++ "_"
  ++ useMockSuffix (mock_config (session self)) ++ ".json".

Definition write_mock_file (self : OperationsSelf) : string :=
  mock_file_base self ++ "_"
  ++ writeMockSuffix (mock_config (session self)) ++ ".json".

(** The URL of one page: [startIndex] when it is not [None], else
    [dateFin]; [requests.utils.quote] takes a str only. *)
Definition operations_url (self : OperationsSelf) (ts_date_debut ts_date_fin : Z)
    (startIndex : json) (limit : Z) : result Url :=
  let ss := session self in
  let res := url ss ++ "/" ++ regional_bank_url ss
             ++ "/particulier/operations/synthese/detail-comptes/"
             ++ "jcr:content.n3.operations.json" in
  let head := [("grandeFamilleCode", grandeFamilleCode self);
               ("compteIdx", compteIdx self);
               ("idDevise", "EUR");
               ("dateDebut", str_of_int ts_date_debut)] in
  match startIndex with
  | JNull =>
      inr {| resource := res;
             query := head ++ [("dateFin", str_of_int ts_date_fin);
                               ("count", str_of_int limit)] |}
  | JStr c =>
      inr {| resource := res;
             query := head ++ [("startIndex", quote env c);
                               ("count", str_of_int limit)] |}
  | _ => inl TypeError
  end.

(** The first part of [Operations.get_operations]: the page text, read from
    the fixture or fetched, and recorded when asked to (lines 175-203). *)
Definition fetch_data (self : OperationsSelf) (ts_date_debut ts_date_fin : Z)
    (startIndex : json) (limit : Z) : M string :=
  let ss := session self in
  if useMocks ss then
    data <- call_read_json_mock (use_mock_file self) ;;
    ret (wrap_listeOperations data)
  else
    u <- lift (operations_url self ts_date_debut ts_date_fin startIndex limit) ;;
    r <- call_requests_get ss u ;;
    if negb (status_code r =? 200) then
      raise (request_error "[error] get operations: " r)
    else
      let data := text r in
      (if writeMocks ss then
         rsp <- lift (json_loads env data) ;;
         operations_data <- lift (py_getitem rsp "listeOperations") ;;
         call_write_json_mock (write_mock_file self) (MockObject operations_data)
       else ret tt) ;;
      ret data.

(** [rsp['hasNext'] is True] *)
Definition is_True (v : json) : bool :=
  match v with JBool true => true | _ => false end.

(** The test of line 210, evaluated left to right. *)
Definition has_next_page (nextCount : Z) (rsp : json) : M bool :=
  if nextCount >? 0 then
    a <- lift (py_in "nextSetStartIndex" rsp) ;;
    if a then
      b <- lift (py_in "hasNext" rsp) ;;
      if b then
        h <- lift (py_getitem rsp "hasNext") ;;
        ret (is_True h)
      else ret false
    else ret false
  else ret false.

(** [nextCount] of lines 170-173 *)
Definition nextCount (count limit : Z) : Z :=
  if count >? limit then count - limit else 0.

(** One call of [Operations.get_operations] up to the test of line 210:
    the dates, the page, the entries appended to [self.list_operations];
    it returns [rsp] and whether a further page is to be fetched. *)
Definition get_operations_page (self : OperationsSelf) (count : Z)
    (startIndex : json) (limit : Z) : M (json * bool) :=
  ts_date_debut <- lift (timestamp env (date_start self)) ;;
  let ts_date_debut := ts_date_debut * 1000 in
  ts_date_fin <- lift (timestamp env (date_stop self)) ;;
  let ts_date_fin := ts_date_fin * 1000 in
  data <- fetch_data self ts_date_debut ts_date_fin startIndex limit ;;
  rsp <- lift (json_loads env data) ;;
  l <- lift (py_getitem rsp "listeOperations") ;;
  ops <- lift (py_iter l) ;;
  for_each ops (fun op => o <- lift (Operation_init op) ;; append_operation o) ;;
  more <- has_next_page (nextCount count limit) rsp ;;
  ret (rsp, more).

(** [if sleep is not None and (isinstance(sleep, int) or
    isinstance(sleep, float)): time.sleep(sleep)] *)
Definition sleep_between (sleep : SleepArg) : M unit :=
  match sleep with
  | SleepNumber d => time_sleep d
  | _ => ret tt
  end.

(** [Operations.get_operations(count, startIndex, limit, sleep)].  [depth]
    is the number of nested calls the stack has room for.  The call of
    line 213 passes [nextCount] and the cursor only: [limit] and [sleep]
    take their defaults there. *)
Fixpoint get_operations_rec (depth : nat) (self : OperationsSelf) (count : Z)
    (startIndex : json) (limit : Z) (sleep : SleepArg) : M unit :=
  match depth with
  | O => raise RecursionError
  | S depth' =>
    p <- get_operations_page self count startIndex limit ;;
    if snd p then
      sleep_between sleep ;;
      cursor <- lift (py_getitem (fst p) "nextSetStartIndex") ;;
      get_operations_rec depth' self (nextCount count limit) cursor
                         default_limit SleepNone
    else ret tt
  end.

(** The nested calls a retrieval can need: one, and one more for each
    further page the count allows.  [get_operations] below is given that
    much room, so it describes a run that Python's own limit on nested
    calls does not cut short; the limit itself is the [depth] of
    [get_operations_rec]. *)
Definition depth_for (count limit : Z) : nat := S (Z.to_nat (count - limit)).

Definition get_operations (self : OperationsSelf) (count : Z)
    (startIndex : json) (limit : Z) (sleep : SleepArg) : M unit :=
  get_operations_rec (depth_for count limit) self count startIndex limit sleep.

(** The state of a fresh object: [self.list_operations = []], nothing
    called yet. *)
Definition fresh : State := {| list_operations := []; trace := [] |}.

(** [DeferredOperations(session, compteIdx, grandeFamilleCode, carteIdx)]:
    the list of the new object, or the exception of [get_operations];
    next to it, the calls made. *)
Definition DeferredOperations (self : DeferredSelf)
  : result (list Operation) * list Event :=
  match deferred_get_operations self fresh with
  | (inl e, s) => (inl e, trace s)
  | (inr _, s) => (inr (list_operations s), trace s)
  end.

(** [Operations(session, compteIdx, grandeFamilleCode, date_start,
    date_stop, count, sleep)]; [count] is 100 and [sleep] is [None] when
    not given. *)
Definition Operations (self : OperationsSelf) (count : Z) (sleep : SleepArg)
  : result (list Operation) * list Event :=
  match get_operations self count JNull default_limit sleep fresh with
  | (inl e, s) => (inl e, trace s)
  | (inr _, s) => (inr (list_operations s), trace s)
  end.

(** *** Both retrievals, as the caller sees them *)

Inductive Retrieval : Type :=
| Windowed (self : OperationsSelf) (count : Z) (sleep : SleepArg)
| Deferred (self : DeferredSelf).

Definition retrieve (rt : Retrieval) : result (list Operation) * list Event :=
  match rt with
  | Windowed self count sleep => Operations self count sleep
  | Deferred self => DeferredOperations self
  end.

(** The text in front of the status code in the exception of a failed
    request (lines 91 and 197). *)
Definition error_prefix (rt : Retrieval) : string :=
  match rt with
  | Windowed _ _ _ => "[error] get operations: "
  | Deferred _ => "[error] get deferred operations: "
  end.

(** ** Reading a trace *)

(** The entries of a page text, as lines 206-207 read them; none when the
    text does not decode to an envelope. *)
Definition entries_of_text (data : string) : list json :=
  match json_loads env data with
  | inr rsp =>
    match py_getitem rsp "listeOperations" with
    | inr l => match py_iter l with
               | inr ops => ops
               | inl _ => []
               end
    | inl _ => []
    end
  | inl _ => []
  end.

(** The entries of the page a call of the windowed retrieval fetched. *)
Definition page_entries (ev : Event) : list json :=
  match ev with
  | EvGet _ _ _ (inr r) =>
      if status_code r =? 200 then entries_of_text (text r) else []
  | EvReadMock _ (inr d) => entries_of_text (wrap_listeOperations d)
  | _ => []
  end.

End Retrieval.

Definition is_get (ev : Event) : bool :=
  match ev with EvGet _ _ _ _ => true | _ => false end.

Definition is_read (ev : Event) : bool :=
  match ev with EvReadMock _ _ => true | _ => false end.

Definition is_write (ev : Event) : bool :=
  match ev with EvWriteMock _ _ => true | _ => false end.

Definition is_sleep (ev : Event) : bool :=
  match ev with EvSleep _ => true | _ => false end.

(** A page fetch: a request to the server or a fixture read. *)
Definition is_fetch (ev : Event) : bool := is_get ev || is_read ev.

Definition count_events (p : Event -> bool) (tr : list Event) : nat :=
  List.length (filter p tr).

(** A fetch that did not give a page: the transport or the store raised, or
    the status is not 200. *)
Definition fetch_failed (ev : Event) : bool :=
  match ev with
  | EvGet _ _ _ (inl _) => true
  | EvGet _ _ _ (inr r) => negb (status_code r =? 200)
  | EvReadMock _ (inl _) => true
  | _ => false
  end.

(** [ceil(c / p)] for positive [p] *)
Definition ceil_div (c p : Z) : Z := (c + p - 1) / p.

Local Open Scope list_scope.

(** The test of line 210 on a decoded dict. *)
Definition continues (n : Z) (rsp : json) : bool :=
  match rsp with
  | JObj kv =>
      (n >? 0)
      && match assoc "nextSetStartIndex" kv with Some _ => true | None => false end
      && match assoc "hasNext" kv with Some v => is_True v | None => false end
  | _ => false
  end.

(** ** What a page fetch can do *)

Section Observations.

Variable env : Env.

(** One call of [fetch_data], case by case: the calls it adds to the trace
    [tr0] and what it returns. *)
Inductive fetch_obs (self : OperationsSelf) (tsd tsf : Z) (si : json)
    (limit : Z) (tr0 : list Event) : list Event -> result string -> Prop :=
| fo_read_raise : forall e,
    useMocks (session self) = true ->
    read_json_mock env (use_mock_file self) = inl e ->
    fetch_obs self tsd tsf si limit tr0
      [EvReadMock (use_mock_file self) (inl e)] (inl e)
| fo_read : forall d,
    useMocks (session self) = true ->
    read_json_mock env (use_mock_file self) = inr d ->
    fetch_obs self tsd tsf si limit tr0
      [EvReadMock (use_mock_file self) (inr d)] (inr (wrap_listeOperations d))
| fo_url : forall e,
    useMocks (session self) = false ->
    operations_url env self tsd tsf si limit = inl e ->
    fetch_obs self tsd tsf si limit tr0 [] (inl e)
| fo_get_raise : forall u e,
    useMocks (session self) = false ->
    operations_url env self tsd tsf si limit = inr u ->
    requests_get env tr0 u = inl e ->
    fetch_obs self tsd tsf si limit tr0
      [EvGet u (ssl_verify (session self)) (cookies (session self)) (inl e)]
      (inl e)
| fo_get_status : forall u r,
    useMocks (session self) = false ->
    operations_url env self tsd tsf si limit = inr u ->
    requests_get env tr0 u = inr r ->
    status_code r <> 200 ->
    fetch_obs self tsd tsf si limit tr0
      [EvGet u (ssl_verify (session self)) (cookies (session self)) (inr r)]
      (inl (request_error "[error] get operations: " r))
| fo_get : forall u r,
    useMocks (session self) = false ->
    operations_url env self tsd tsf si limit = inr u ->
    requests_get env tr0 u = inr r ->
    status_code r = 200 ->
    writeMocks (session self) = false ->
    fetch_obs self tsd tsf si limit tr0
      [EvGet u (ssl_verify (session self)) (cookies (session self)) (inr r)]
      (inr (text r))
| fo_get_undecoded : forall u r e,
    useMocks (session self) = false ->
    operations_url env self tsd tsf si limit = inr u ->
    requests_get env tr0 u = inr r ->
    status_code r = 200 ->
    writeMocks (session self) = true ->
    match json_loads env (text r) with
    | inl e' => e' = e
    | inr rsp => py_getitem rsp "listeOperations" = inl e
    end ->
    fetch_obs self tsd tsf si limit tr0
      [EvGet u (ssl_verify (session self)) (cookies (session self)) (inr r)]
      (inl e)
| fo_get_write : forall u r rsp l,
    useMocks (session self) = false ->
    operations_url env self tsd tsf si limit = inr u ->
    requests_get env tr0 u = inr r ->
    status_code r = 200 ->
    writeMocks (session self) = true ->
    json_loads env (text r) = inr rsp ->
    py_getitem rsp "listeOperations" = inr l ->
    fetch_obs self tsd tsf si limit tr0
      [EvGet u (ssl_verify (session self)) (cookies (session self)) (inr r);
       EvWriteMock (write_mock_file self) (MockObject l)]
      (inr (text r)).

(** Decoding the page text [data] raises [e] after the entries [saved]
    were appended: the text, the envelope or the list is not as expected,
    or the entry after [saved] lacks a field. *)
Definition decode_raises (data : string) (saved : list json) (e : exn) : Prop :=
  match json_loads env data with
  | inl e' => e' = e /\ saved = []
  | inr rsp =>
    match py_getitem rsp "listeOperations" with
    | inl e' => e' = e /\ saved = []
    | inr l =>
      match py_iter l with
      | inl e' => e' = e /\ saved = []
      | inr ops => exists bad rest,
                     ops = saved ++ bad :: rest /\ Operation_init bad = inl e
      end
    end
  end.

(** One call of [get_operations_page]: the calls it adds to [tr0], the
    entries it appends to [self.list_operations], and what it returns. *)
Inductive page_obs (self : OperationsSelf) (count : Z) (si : json) (limit : Z)
    (tr0 : list Event) : list Event -> list json -> result (json * bool) -> Prop :=
| po_date_start : forall e,
    timestamp env (date_start self) = inl e ->
    page_obs self count si limit tr0 [] [] (inl e)
| po_date_stop : forall a e,
    timestamp env (date_start self) = inr a ->
    timestamp env (date_stop self) = inl e ->
    page_obs self count si limit tr0 [] [] (inl e)
| po_fetch : forall a b evs e,
    timestamp env (date_start self) = inr a ->
    timestamp env (date_stop self) = inr b ->
    fetch_obs self (a * 1000) (b * 1000) si limit tr0 evs (inl e) ->
    page_obs self count si limit tr0 evs [] (inl e)
| po_decode : forall a b evs data saved e,
    timestamp env (date_start self) = inr a ->
    timestamp env (date_stop self) = inr b ->
    fetch_obs self (a * 1000) (b * 1000) si limit tr0 evs (inr data) ->
    decode_raises data saved e ->
    page_obs self count si limit tr0 evs saved (inl e)
| po_page : forall a b evs data rsp l ops,
    timestamp env (date_start self) = inr a ->
    timestamp env (date_stop self) = inr b ->
    fetch_obs self (a * 1000) (b * 1000) si limit tr0 evs (inr data) ->
    json_loads env data = inr rsp ->
    py_getitem rsp "listeOperations" = inr l ->
    py_iter l = inr ops ->
    page_obs self count si limit tr0 evs ops
      (inr (rsp, continues (nextCount count limit) rsp)).

(** The calls of [sleep_between] when it returns. *)
Definition sleep_events (sleep : SleepArg) : list Event :=
  match sleep with
  | SleepNumber d => [EvSleep d]
  | _ => []
  end.

(** A whole call of [get_operations]: a page, and when a further page is
    to be fetched, the pause and the nested call, which is made with
    [nextCount], the cursor of [rsp], [default_limit] and [SleepNone]. *)
Inductive run_obs (self : OperationsSelf)
  : Z -> json -> Z -> SleepArg -> list Event ->
    list Event -> list json -> result unit -> Prop :=
| ro_raise : forall count si limit sleep tr0 evs ents e,
    page_obs self count si limit tr0 evs ents (inl e) ->
    run_obs self count si limit sleep tr0 evs ents (inl e)
| ro_last : forall count si limit sleep tr0 evs ents rsp,
    page_obs self count si limit tr0 evs ents (inr (rsp, false)) ->
    run_obs self count si limit sleep tr0 evs ents (inr tt)
| ro_sleep_raise : forall count si limit d tr0 evs ents rsp,
    page_obs self count si limit tr0 evs ents (inr (rsp, true)) ->
    negative d = true ->
    run_obs self count si limit (SleepNumber d) tr0 evs ents (inl ValueError)
| ro_next : forall count si limit sleep tr0 evs ents rsp cursor evs' ents' r,
    page_obs self count si limit tr0 evs ents (inr (rsp, true)) ->
    match sleep with SleepNumber d => negative d = false | _ => True end ->
    py_getitem rsp "nextSetStartIndex" = inr cursor ->
    run_obs self (nextCount count limit) cursor default_limit SleepNone
            (tr0 ++ evs ++ sleep_events sleep) evs' ents' r ->
    run_obs self count si limit sleep tr0
            (evs ++ sleep_events sleep ++ evs') (ents ++ ents') r.

End Observations.

(** ** What the deferred retrieval can do *)

(** The fetch of [DeferredOperations.get_operations], made after the trace
    [tr0]: the fixture read in replay mode, else the request. *)
Definition deferred_fetch (env : Env) (self : DeferredSelf) (tr0 : list Event)
  : Event :=
  let ss := d_session self in
  if useMocks ss then
    EvReadMock (deferred_use_mock_file self)
               (read_json_mock env (deferred_use_mock_file self))
  else
    EvGet (deferred_url self) (ssl_verify ss) (cookies ss)
          (requests_get env tr0 (deferred_url self)).

(** The text a fetch gave, or the exception it ends the retrieval with;
    [prefix] is the text of the retrieval in front of the status code. *)
Definition fetched_text (prefix : string) (ev : Event) : result string :=
  match ev with
  | EvReadMock _ r => r
  | EvGet _ _ _ (inl e) => inl e
  | EvGet _ _ _ (inr r) =>
      if status_code r =? 200 then inr (text r) else inl (request_error prefix r)
  | _ => inl TypeError
  end.

(** The write of line 96. *)
Definition deferred_record (self : DeferredSelf) (data : string) : list Event :=
  if writeMocks (d_session self) then
    [EvWriteMock (deferred_write_mock_file self) (MockText data)]
  else [].

(** ** Replay and recording *)

(** A decoded envelope with the one field [listeOperations]. *)
Definition envelope_only (rsp : json) : Prop :=
  exists v, rsp = JObj [("listeOperations", v)].

(** The write that follows a fetch.  Windowed (lines 200-203): when
    [writeMocks] is set and [useMocks] is not, a request answered 200 whose
    text decodes to a dict with [listeOperations] is followed by the write
    of that decoded value.  Deferred (lines 94-96): when [writeMocks] is
    set, a fixture read or a request answered 200 is followed by the write
    of the text it gave. *)
Definition recorded (env : Env) (rt : Retrieval) (ev : Event) : option Event :=
  match rt with
  | Windowed self _ _ =>
      if writeMocks (session self) && negb (useMocks (session self)) then
        match ev with
        | EvGet _ _ _ (inr r) =>
            if status_code r =? 200 then
              match json_loads env (text r) with
              | inr rsp =>
                  match py_getitem rsp "listeOperations" with
                  | inr l => Some (EvWriteMock (write_mock_file self) (MockObject l))
                  | inl _ => None
                  end
              | inl _ => None
              end
            else None
        | _ => None
        end
      else None
  | Deferred self =>
      if writeMocks (d_session self) then
        match ev with
        | EvGet _ _ _ (inr r) =>
            if status_code r =? 200 then
              Some (EvWriteMock (deferred_write_mock_file self) (MockText (text r)))
            else None
        | EvReadMock _ (inr d) =>
            Some (EvWriteMock (deferred_write_mock_file self) (MockText d))
        | _ => None
        end
      else None
  end.

(** A trace in which every call that has a write to follow is followed at
    once by that write, and there is no other write. *)
Fixpoint well_recorded (env : Env) (rt : Retrieval) (tr : list Event) : Prop :=
  match tr with
  | [] => True
  | ev :: tr' =>
      is_write ev = false /\
      match recorded env rt ev with
      | Some w =>
          match tr' with
          | w' :: tr'' => w' = w /\ well_recorded env rt tr''
          | [] => False
          end
      | None => well_recorded env rt tr'
      end
  end.

(** ** Pages that announce a further page *)

(** A response the retrieval reads as a page with a further page behind
    it: status 200, an envelope whose entries have their three fields,
    [hasNext] true and a str cursor. *)
Definition more_available (env : Env) (resp : Response) : Prop :=
  status_code resp = 200 /\
  exists kv l ops cursor,
    json_loads env (text resp) = inr (JObj kv) /\
    assoc "listeOperations" kv = Some l /\
    py_iter l = inr ops /\
    Forall (fun op => exists o, Operation_init op = inr o) ops /\
    assoc "hasNext" kv = Some (JBool true) /\
    assoc "nextSetStartIndex" kv = Some (JStr cursor).

(** A [sleep] argument with which [time.sleep] is not called: [None], or
    an object that is no number. *)
Definition no_pause (sleep : SleepArg) : Prop :=
  match sleep with
  | SleepNumber _ => False
  | _ => True
  end.

(** ** Sample worlds

    A session, an account, and a server that answers the requests of a
    retrieval with a given list of responses, one after the other.  The
    texts are JSON; [loads] decodes the ones listed in [docs], as
    [json.loads] does, and rejects any other text. *)

Module Sample.

Local Open Scope string_scope.

Definition q (s : string) : string := dquote ++ s ++ dquote.

(** The documents of the samples. *)
Inductive doc : Type :=
| Entries (labels : list string)
| Envelope (labels : list string) (hasNext : bool) (cursor : string)
| Wrapped (labels : list string).

Definition entry_text (label : string) : string :=
  "{" ++ q "libelleOperation" ++ ": " ++ q label ++ ", "
  ++ q "dateOperation" ++ ": " ++ q "Jan 2, 2024" ++ ", "
  ++ q "montant" ++ ": -5}".

Definition entry_json (label : string) : json :=
  JObj [("libelleOperation", JStr label);
        ("dateOperation", JStr "Jan 2, 2024");
        ("montant", JNum (Int (-5)))].

Definition entries_text (labels : list string) : string :=
  "[" ++ String.concat ", " (map entry_text labels) ++ "]".

Definition doc_text (d : doc) : string :=
  match d with
  | Entries labels => entries_text labels
  | Envelope labels hasNext cursor =>
      "{" ++ q "listeOperations" ++ ": " ++ entries_text labels ++ ", "
      ++ q "hasNext" ++ ": " ++ (if hasNext then "true" else "false") ++ ", "
      ++ q "nextSetStartIndex" ++ ": " ++ q cursor ++ "}"
  | Wrapped labels => wrap_listeOperations (entries_text labels)
  end.

Definition doc_json (d : doc) : json :=
  match d with
  | Entries labels => JArr (map entry_json labels)
  | Envelope labels hasNext cursor =>
      JObj [("listeOperations", JArr (map entry_json labels));
            ("hasNext", JBool hasNext);
            ("nextSetStartIndex", JStr cursor)]
  | Wrapped labels => JObj [("listeOperations", JArr (map entry_json labels))]
  end.

Fixpoint loads (ds : list doc) (s : string) : result json :=
  match ds with
  | [] => inl JSONDecodeError
  | d :: ds' => if String.eqb s (doc_text d) then inr (doc_json d) else loads ds' s
  end.

Definition docs : list doc :=
  [Entries ["a"; "b"]; Wrapped ["a"; "b"];
   Envelope ["a"; "b"] false EmptyString; Envelope ["a"; "b"] true "X";
   Envelope ["c"] false EmptyString; Envelope ["c"] true "Y"; Envelope ["d"] true "Z"].

Definition ok (d : doc) : Response := {| status_code := 200; text := doc_text d |}.

Definition unavailable : Response :=
  {| status_code := 500; text := "Internal Server Error" |}.

(** The [n]-th request is answered by the [n]-th response; when the list
    is used up the server answers 500. *)
Definition serve (responses : list Response) (tr : list Event) (u : Url)
  : result Response :=
  inr (nth (count_events is_get tr) responses unavailable).

Definition fixtures (name : string) : result string :=
  if String.eqb name "account-7-1_operations_mock.json" then
    inr (entries_text ["a"; "b"])
  else if String.eqb name "card-1234_operations_mock.json" then
    inr (entries_text ["a"; "b"])
  else inl (OtherError "FileNotFoundError").

Definition dates (s : string) : result Z :=
  if String.eqb s "2024-01-01" then inr 1704067200
  else if String.eqb s "2024-02-01" then inr 1706745600
  else inl ValueError.

Definition world (responses : list Response) : Env :=
  {| json_loads := loads docs;
     quote := fun s => s;
     timestamp := dates;
     read_json_mock := fixtures;
     requests_get := serve responses |}.

Definition a_session (use write : bool) : Session :=
  {| url := "https://www.credit-agricole.fr";
     regional_bank_url := "ca-paris";
     ssl_verify := true;
     cookies := [("session", "0000")];
     useMocks := use;
     writeMocks := write;
     mock_config := {| useMockSuffix := "mock"; writeMockSuffix := "new" |} |}.

Definition an_account (use write : bool) : OperationsSelf :=
  {| session := a_session use write;
     compteIdx := "1";
     grandeFamilleCode := "7";
     date_start := "2024-01-01";
     date_stop := "2024-02-01" |}.

Definition a_card (use write : bool) : DeferredSelf :=
  {| d_session := a_session use write;
     d_compteIdx := "1";
     d_grandeFamilleCode := "7";
     d_carteIdx := "1234" |}.

(** One page, with no further page. *)
Definition one_page : Env := world [ok (Envelope ["a"; "b"] false EmptyString)].

(** Two pages, the first with cursor X. *)
Definition two_pages : Env :=
  world [ok (Envelope ["a"; "b"] true "X"); ok (Envelope ["c"] false EmptyString)].

(** Pages that all announce a further page. *)
Definition endless : Env :=
  world [ok (Envelope ["a"; "b"] true "X"); ok (Envelope ["c"] true "Y");
         ok (Envelope ["d"] true "Z"); ok (Envelope ["d"] true "Z");
         ok (Envelope ["d"] true "Z"); ok (Envelope ["d"] true "Z")].

(** A first page, then the server fails. *)
Definition failing : Env := world [ok (Envelope ["a"; "b"] true "X")].

(** A card page. *)
Definition card_page : Env := world [ok (Entries ["a"; "b"])].

(** A server that answers every request with a page that announces a
    further page. *)
Definition always_more : Env :=
  {| json_loads := loads docs;
     quote := fun s => s;
     timestamp := dates;
     read_json_mock := fixtures;
     requests_get := fun _ _ => inr (ok (Envelope ["d"] true "Z")) |}.

End Sample.

(** ** Iteration and length

    [__iter__], [__next__] and [__len__] are the same in both classes
    (lines 42-58 and 125-141).  The object is its list and the attribute
    [n], which exists once [__iter__] was called. *)

Module Iteration.

Record Obj : Type := {
  held : list Operation;
  n : option nat
}.

(** What a call of [__next__] ends with. *)
Inductive Next : Type :=
| Yield (op : Operation)
| StopIteration
| AttributeError.

(** [__iter__]: sets [self.n = 0] and returns [self]. *)
Definition iter (self : Obj) : Obj := {| held := held self; n := Some 0%nat |}.

(** [__next__] *)
Definition next (self : Obj) : Next * Obj :=
  match n self with
  | None => (AttributeError, self)
  | Some i =>
    match nth_error (held self) i with
    | Some op => (Yield op, {| held := held self; n := Some (S i) |})
    | None => (StopIteration, self)
    end
  end.

(** [__len__] *)
Definition len (self : Obj) : nat := List.length (held self).

(** The calls of [__next__] of a [for] statement, after its [iter]: the
    body is run on each operation yielded, with the object at hand, until
    [__next__] raises; [fuel] bounds the number of calls. *)
Fixpoint loop {A : Type} (fuel : nat) (body : Operation -> A -> Obj -> A * Obj)
    (acc : A) (self : Obj) : A * Obj :=
  match fuel with
  | O => (acc, self)
  | S fuel' =>
    match next self with
    | (Yield op, self') =>
        let (acc', self'') := body op acc self' in
        loop fuel' body acc' self''
    | (_, self') => (acc, self')
    end
  end.

(** [for op in self: body] *)
Definition for_in {A : Type} (fuel : nat)
    (body : Operation -> A -> Obj -> A * Obj) (acc : A) (self : Obj) : A * Obj :=
  loop fuel body acc (iter self).

(** [list(self)] *)
Definition to_list (fuel : nat) (self : Obj) : list Operation * Obj :=
  for_in fuel (fun op acc o => (acc ++ [op], o)) [] self.

(** [[(a, b) for a in self for b in self]] *)
Definition pairs (fuel : nat) (self : Obj)
  : list (Operation * Operation) * Obj :=
  for_in fuel
    (fun a acc o => for_in fuel (fun b acc' o' => (acc' ++ [(a, b)], o')) acc o)
    [] self.

End Iteration.

(** ** Serialization *)

(** The [as_json] of both classes (lines 60-65 and 143-148), [dumps] being
    [json.dumps]. *)
Definition as_json (dumps : json -> string) (ops : list Operation) : string :=
  dumps (JArr (map descr ops)).

(** An operation as [Operation(descr)] builds it. *)
Definition built (o : Operation) : Prop := Operation_init (descr o) = inr o.

(** ** The sample script *)

(** [convert_to_type_structure], on decoded JSON.  The tests are made in
    the order str, int, float, bool, list, dict, None; a bool is an int in
    Python, so it is caught by the second test. *)
Fixpoint convert_to_type_structure (data : json) : json :=
  match data with
  | JStr _ => JStr EmptyString
  | JNum (Int _) => JNum (Int 0)
  | JBool _ => JNum (Int 0)
  | JNum (Float _) => JNum (Float 0)
  | JArr l =>
      match l with
      | x :: _ => JArr [convert_to_type_structure x]
      | [] => JArr []
      end
  | JObj kv => JObj (map (fun p => (fst p, convert_to_type_structure (snd p))) kv)
  | JNull => JNull
  end.

(** A value with no data in it: placeholders, lists of at most one
    element, dicts of such values. *)
Inductive type_structure : json -> Prop :=
| ts_none : type_structure JNull
| ts_str : type_structure (JStr EmptyString)
| ts_int : type_structure (JNum (Int 0))
| ts_float : type_structure (JNum (Float 0))
| ts_empty : type_structure (JArr [])
| ts_one : forall v, type_structure v -> type_structure (JArr [v])
| ts_dict : forall kv,
    Forall (fun p => type_structure (snd p)) kv -> type_structure (JObj kv).

(** [[0-9]] *)
Definition is_digit (c : ascii) : bool :=
  ((48 <=? nat_of_ascii c) && (nat_of_ascii c <=? 57))%nat.

Definition newline : ascii := ascii_of_nat 10.

(** [[0-9]*$] from here on: digits up to the end of the string, or up to
    a newline that is its last character. *)
Fixpoint digits_to_end (s : string) : bool :=
  match s with
  | EmptyString => true
  | String c s' =>
      if is_digit c then digits_to_end s'
      else Ascii.eqb c newline && match s' with EmptyString => true | _ => false end
  end.

(** [re.match(r'^[0-9]+$', s)] *)
Definition all_digits (s : string) : bool :=
  match s with
  | EmptyString => false
  | String c s' => is_digit c && digits_to_end s'
  end.

(** ['0' * n] *)
Fixpoint zeros (k : nat) : string :=
  match k with
  | O => EmptyString
  | S k' => String "0" (zeros k')
  end.

(** [create_placeholder] *)
Definition create_placeholder (original_id : string) : string :=
  if all_digits original_id then zeros (String.length original_id)
  else "placeholder"%string.

(** [os.path.join(a, b)] of [posixpath]. *)
Definition starts_with_sep (s : string) : bool :=
  match s with
  | String c _ => Ascii.eqb c "/"
  | EmptyString => false
  end.

Fixpoint ends_with_sep (s : string) : bool :=
  match s with
  | EmptyString => false
  | String c EmptyString => Ascii.eqb c "/"
  | String _ s' => ends_with_sep s'
  end.

Definition path_join (a b : string) : string :=
  if starts_with_sep b then b
  else if match a with EmptyString => true | _ => ends_with_sep a end
       then (a ++ b)%string
       else (a ++ "/" ++ b)%string.

(** [get_target_dir] *)
Definition get_target_dir (base_dir mode : string) (single_mode : bool) : string :=
  if single_mode then base_dir else path_join base_dir mode.

(** ** More samples *)

(** The operation of the sample entry with the given label. *)
Definition sample_operation (label : string) : Operation :=
  {| descr := Sample.entry_json label;
     libelleOp := JStr label;
     dateOp := JStr "Jan 2, 2024";
     montantOp := JNum (Int (-5)) |}.

(** [json.dumps] on the values of the samples: ints, strs that need no
    escape, lists and dicts of them. *)
Fixpoint sample_dumps (v : json) : string :=
  match v with
  | JNull => "null"
  | JBool true => "true"
  | JBool false => "false"
  | JNum (Int k) => str_of_int k
  | JNum (Float _) => "NaN"
  | JStr s => Sample.q s
  | JArr l => "[" ++ String.concat ", " (map sample_dumps l) ++ "]"
  | JObj kv =>
      "{" ++ String.concat ", "
               (map (fun p => Sample.q (fst p) ++ ": " ++ sample_dumps (snd p)) kv)
      ++ "}"
  end%string.

(** What the type structure of a value is, type by type: the placeholder
    of a str, an int, a float and [None]; the int 0 for a bool; the
    structure of its first element for a list; the structure of each value
    under the same key, in the same order, for a dict. *)
Inductive structure_of : json -> json -> Prop :=
| so_none : structure_of JNull JNull
| so_str : forall s, structure_of (JStr s) (JStr EmptyString)
| so_int : forall k, structure_of (JNum (Int k)) (JNum (Int 0))
| so_float : forall q, structure_of (JNum (Float q)) (JNum (Float 0))
| so_bool : forall b, structure_of (JBool b) (JNum (Int 0))
| so_empty : structure_of (JArr []) (JArr [])
| so_first : forall x l y,
    structure_of x y -> structure_of (JArr (x :: l)) (JArr [y])
| so_dict : forall kv kv',
    Forall2 (fun p p' => fst p = fst p' /\ structure_of (snd p) (snd p'))
            kv kv' ->
    structure_of (JObj kv) (JObj kv').

(** A fixture whose text closes the list and goes on with two fields.
    Put in the envelope of the replay path it is the text of a dict with
    three keys, a page that announces a further page. *)
Definition open_fixture_text : string :=
  ("[" ++ Sample.entry_text "a" ++ "], "
   ++ Sample.q "hasNext" ++ ": true, "
   ++ Sample.q "nextSetStartIndex" ++ ": " ++ Sample.q "X")%string.

Definition open_fixture : Env :=
  {| json_loads := fun s =>
       if String.eqb s (wrap_listeOperations open_fixture_text) then
         inr (JObj [("listeOperations", JArr [Sample.entry_json "a"]);
                    ("hasNext", JBool true);
                    ("nextSetStartIndex", JStr "X")])
       else inl JSONDecodeError;
     quote := fun s => s;
     timestamp := Sample.dates;
     read_json_mock := fun name =>
       if String.eqb name "account-7-1_operations_mock.json" then
         inr open_fixture_text
       else inl (OtherError "FileNotFoundError");
     requests_get := Sample.serve [] |}.

(** ** Running the monad *)

Lemma bind_inv {A B : Type} (c : M A) (k : A -> M B) s r s' :
  bind c k s = (r, s') ->
  (exists e, c s = (inl e, s') /\ r = inl e) \/
  (exists a s1, c s = (inr a, s1) /\ k a s1 = (r, s')).
Proof.
  unfold bind. destruct (c s) as [[e | a] s1]; intros H.
  - left. exists e. inversion H; subst. auto.
  - right. exists a, s1. auto.
Qed.

Lemma lift_inv {A : Type} (x : result A) s r s' :
  lift x s = (r, s') -> x = r /\ s' = s.
Proof. unfold lift. intros H; inversion H; auto. Qed.

Lemma ret_inv {A : Type} (a : A) s r s' :
  ret a s = (r, s') -> r = inr a /\ s' = s.
Proof. unfold ret. intros H; inversion H; auto. Qed.

Lemma raise_inv {A : Type} (e : exn) s (r : result A) s' :
  raise e s = (r, s') -> r = inl e /\ s' = s.
Proof. unfold raise. intros H; inversion H; auto. Qed.

Lemma emit_inv ev s r s' :
  emit ev s = (r, s') -> r = inr tt /\ s' = log s ev.
Proof. unfold emit. intros H; inversion H; auto. Qed.

Lemma call_read_json_mock_inv env name s r s' :
  call_read_json_mock env name s = (r, s') ->
  read_json_mock env name = r /\ s' = log s (EvReadMock name r).
Proof.
  unfold call_read_json_mock, bind, emit, lift. intros H; inversion H; auto.
Qed.

Lemma call_requests_get_inv env ss u s r s' :
  call_requests_get env ss u s = (r, s') ->
  requests_get env (trace s) u = r /\
  s' = log s (EvGet u (ssl_verify ss) (cookies ss) r).
Proof.
  unfold call_requests_get, bind, emit, lift. intros H; inversion H; auto.
Qed.

Lemma call_write_json_mock_inv name data s r s' :
  call_write_json_mock name data s = (r, s') ->
  r = inr tt /\ s' = log s (EvWriteMock name data).
Proof. unfold call_write_json_mock. apply emit_inv. Qed.

Lemma trace_log s ev : trace (log s ev) = (trace s ++ [ev])%list.
Proof. reflexivity. Qed.

Lemma list_operations_log s ev : list_operations (log s ev) = list_operations s.
Proof. reflexivity. Qed.

(** Takes a run [c s = (r, s')] apart, one bind after the other. *)
Ltac minv H :=
  lazymatch type of H with
  | bind _ _ _ = (_, _) =>
      let e := fresh "e" in let a := fresh "a" in let s1 := fresh "s" in
      let H1 := fresh "Hc" in let H2 := fresh "Hk" in let E := fresh "E" in
      apply bind_inv in H;
      destruct H as [[e [H1 E]] | [a [s1 [H1 H2]]]];
      [ minv H1 | minv H1; minv H2 ]
  | lift _ _ = (_, _) => apply lift_inv in H; destruct H
  | ret _ _ = (_, _) => apply ret_inv in H; destruct H
  | raise _ _ = (_, _) => apply raise_inv in H; destruct H
  | emit _ _ = (_, _) => apply emit_inv in H; destruct H
  | call_read_json_mock _ _ _ = (_, _) =>
      apply call_read_json_mock_inv in H; destruct H
  | call_requests_get _ _ _ _ = (_, _) =>
      apply call_requests_get_inv in H; destruct H
  | call_write_json_mock _ _ _ = (_, _) =>
      apply call_write_json_mock_inv in H; destruct H
  | (if ?b then _ else _) _ = (_, _) =>
      let E := fresh "Eb" in destruct b eqn:E; minv H
  | _ => idtac
  end.

Ltac sum_inj :=
  repeat match goal with
         | H : inl _ = inl _ |- _ => inversion H; clear H
         | H : inr _ = inr _ |- _ => inversion H; clear H
         | H : inl _ = inr _ |- _ => discriminate H
         | H : inr _ = inl _ |- _ => discriminate H
         | H : (_, _) = (_, _) |- _ => inversion H; clear H
         end; subst.

Ltac status_cases :=
  repeat match goal with
         | H : negb (_ =? _) = true |- _ => apply negb_true_iff, Z.eqb_neq in H
         | H : negb (_ =? _) = false |- _ => apply negb_false_iff, Z.eqb_eq in H
         end.

Section Pages.

Variable env : Env.

Lemma fetch_data_obs self tsd tsf si limit s r s' :
  fetch_data env self tsd tsf si limit s = (r, s') ->
  exists evs,
    list_operations s' = list_operations s /\
    trace s' = (trace s ++ evs)%list /\
    fetch_obs env self tsd tsf si limit (trace s) evs r.
Proof.
  unfold fetch_data. intros H.
  minv H; subst; sum_inj; status_cases;
    rewrite ?trace_log, ?list_operations_log, <- ?app_assoc;
    try (eexists; split; [reflexivity | split; [reflexivity |]]).
  - now apply fo_read_raise.
  - now apply fo_read.
  - exists []. rewrite app_nil_r. repeat split. now apply fo_url.
  - now apply fo_get_raise.
  - now apply fo_get_status.
  - apply fo_get_undecoded; auto.
    match goal with H : json_loads _ _ = _ |- _ => now rewrite H end.
  - eapply fo_get_undecoded; eauto.
    match goal with H : json_loads _ _ = _ |- _ => now rewrite H end.
  - eapply fo_get_write; eauto.
  - now apply fo_get.
Qed.

Lemma Operation_init_descr d o : Operation_init d = inr o -> descr o = d.
Proof.
  unfold Operation_init.
  destruct (py_getitem d "libelleOperation"); [discriminate |].
  destruct (py_getitem d "dateOperation"); [discriminate |].
  destruct (py_getitem d "montant"); [discriminate |].
  intros H; inversion H; reflexivity.
Qed.

(** The loop of lines 207-208 touches the list only, and appends the
    entries in their order; when it raises, the entries before the bad one
    stay appended. *)
Lemma for_each_saved ops : forall s r s',
  for_each ops (fun op => o <- lift (Operation_init op) ;; append_operation o) s
  = (r, s') ->
  trace s' = trace s /\
  exists saved,
    list_operations s' = (list_operations s ++ saved)%list /\
    match r with
    | inr _ => map descr saved = ops
    | inl e => exists bad rest,
                 ops = (map descr saved ++ bad :: rest)%list /\
                 Operation_init bad = inl e
    end.
Proof.
  induction ops as [| op ops IH]; intros s r s' H; simpl in H.
  - apply ret_inv in H; destruct H; subst. split; [reflexivity |].
    exists []. rewrite app_nil_r. auto.
  - apply bind_inv in H. destruct H as [[e [H ->]] | [u [s1 [Hb H]]]].
    + apply bind_inv in H. destruct H as [[e' [H E]] | [o [s1 [_ H]]]].
      * apply lift_inv in H; destruct H as [H ->]. inversion E; subst e'.
        split; [reflexivity |]. exists []. rewrite app_nil_r.
        split; [reflexivity |]. exists op, ops. auto.
      * unfold append_operation in H. discriminate.
    + apply bind_inv in Hb. destruct Hb as [[e' [_ E]] | [o [s2 [Ho Hb]]]];
        [discriminate |].
      apply lift_inv in Ho; destruct Ho; subst s2.
      unfold append_operation in Hb. inversion Hb; subst; clear Hb.
      apply IH in H. simpl in H. destruct H as [Ht [saved [Hl Hr]]].
      split; [exact Ht |]. exists (o :: saved).
      rewrite Hl, <- app_assoc. split; [reflexivity |].
      simpl. rewrite (Operation_init_descr op o) by assumption.
      destruct r as [e | u'].
      * destruct Hr as [bad [rest [Hr Hbad]]]. exists bad, rest.
        rewrite Hr. auto.
      * now rewrite Hr.
Qed.

(** After [rsp["listeOperations"]] succeeded, [rsp] is a dict and the test
    of line 210 cannot raise. *)
Lemma has_next_page_continues n rsp l s :
  py_getitem rsp "listeOperations" = inr l ->
  has_next_page n rsp s = (inr (continues n rsp), s).
Proof.
  destruct rsp; simpl; try discriminate. intros _.
  unfold has_next_page, continues.
  destruct (n >? 0); [| reflexivity].
  unfold bind, lift, ret; simpl.
  destruct (assoc "nextSetStartIndex" kv); [| reflexivity].
  destruct (assoc "hasNext" kv); reflexivity.
Qed.

Lemma get_operations_page_obs self count si limit s r s' :
  get_operations_page env self count si limit s = (r, s') ->
  exists evs saved,
    trace s' = (trace s ++ evs)%list /\
    list_operations s' = (list_operations s ++ saved)%list /\
    page_obs env self count si limit (trace s) evs (map descr saved) r.
Proof.
  unfold get_operations_page. intros H.
  apply bind_inv in H. destruct H as [[e [H ->]] | [a [s1 [Ha H]]]].
  { apply lift_inv in H; destruct H; subst.
    exists [], []. rewrite !app_nil_r. repeat split. now apply po_date_start. }
  apply lift_inv in Ha; destruct Ha; subst.
  apply bind_inv in H. destruct H as [[e [H ->]] | [b [s1 [Hb H]]]].
  { apply lift_inv in H; destruct H; subst.
    exists [], []. rewrite !app_nil_r. repeat split. now eapply po_date_stop; eauto. }
  apply lift_inv in Hb; destruct Hb; subst.
  apply bind_inv in H. destruct H as [[e [H ->]] | [data [s1 [Hf H]]]].
  { apply fetch_data_obs in H. destruct H as [evs [Hl [Ht Ho]]].
    exists evs, []. rewrite app_nil_r. repeat split; auto.
    eapply po_fetch; eauto. }
  apply fetch_data_obs in Hf. destruct Hf as [evs [Hl [Ht Ho]]].
  exists evs.
  apply bind_inv in H. destruct H as [[e [H ->]] | [rsp [s2 [Hj H]]]].
  { apply lift_inv in H; destruct H as [Hj ->].
    exists []. rewrite app_nil_r. repeat split; auto.
    eapply po_decode; eauto. unfold decode_raises. rewrite Hj. auto. }
  apply lift_inv in Hj; destruct Hj as [Hj ->].
  apply bind_inv in H. destruct H as [[e [H ->]] | [l [s2 [Hg H]]]].
  { apply lift_inv in H; destruct H as [Hg ->].
    exists []. rewrite app_nil_r. repeat split; auto.
    eapply po_decode; eauto. unfold decode_raises. rewrite Hj, Hg. auto. }
  apply lift_inv in Hg; destruct Hg as [Hg ->].
  apply bind_inv in H. destruct H as [[e [H ->]] | [ops [s2 [Hi H]]]].
  { apply lift_inv in H; destruct H as [Hi ->].
    exists []. rewrite app_nil_r. repeat split; auto.
    eapply po_decode; eauto. unfold decode_raises. rewrite Hj, Hg, Hi. auto. }
  apply lift_inv in Hi; destruct Hi as [Hi ->].
  apply bind_inv in H. destruct H as [[e [H ->]] | [u [s2 [Hfe H]]]].
  { apply for_each_saved in H. destruct H as [Ht' [saved [Hl' Hr]]].
    exists saved. rewrite Ht', Hl', Hl. repeat split; auto.
    eapply po_decode; eauto. unfold decode_raises. rewrite Hj, Hg, Hi.
    exact Hr. }
  apply for_each_saved in Hfe. destruct Hfe as [Ht' [saved [Hl' Hr]]].
  exists saved.
  unfold bind in H.
  match goal with Hg : py_getitem _ _ = _ |- _ =>
    rewrite (has_next_page_continues _ _ _ s2 Hg) in H
  end.
  unfold ret in H. inversion H; subst r s'; clear H.
  rewrite Ht', Hl', Hl, Hr. repeat split; auto.
  eapply po_page; eauto.
Qed.

Lemma continues_nextCount count limit rsp :
  continues (nextCount count limit) rsp = true ->
  limit < count /\ nextCount count limit = count - limit /\
  exists cursor, py_getitem rsp "nextSetStartIndex" = inr cursor.
Proof.
  unfold continues, nextCount. destruct rsp; try discriminate.
  destruct (Z.gtb_spec count limit) as [Hgt | Hle]; [| discriminate].
  intros H. apply andb_true_iff in H. destruct H as [H _].
  apply andb_true_iff in H. destruct H as [_ H].
  split; [lia |]. split; [reflexivity |]. simpl.
  destruct (assoc "nextSetStartIndex" kv) as [c |]; [| discriminate].
  now exists c.
Qed.

Lemma sleep_between_inv sleep s r s' :
  sleep_between sleep s = (r, s') ->
  match sleep with
  | SleepNumber d =>
      if negative d then r = inl ValueError /\ s' = s
      else r = inr tt /\ s' = log s (EvSleep d)
  | _ => r = inr tt /\ s' = s
  end.
Proof.
  unfold sleep_between, time_sleep. destruct sleep as [| d |]; intros H.
  - now apply ret_inv in H.
  - destruct (negative d).
    + now apply raise_inv in H.
    + now apply emit_inv in H.
  - now apply ret_inv in H.
Qed.

(** With room for [depth_for count limit] nested calls, a call of
    [get_operations_rec] is a run of pages: the stack never runs out. *)
Lemma get_operations_rec_obs self depth : forall count si limit sleep s r s',
  (depth_for count limit <= depth)%nat ->
  get_operations_rec env depth self count si limit sleep s = (r, s') ->
  exists evs saved,
    trace s' = trace s ++ evs /\
    list_operations s' = list_operations s ++ saved /\
    run_obs env self count si limit sleep (trace s) evs (map descr saved) r.
Proof.
  induction depth as [| depth IH]; intros count si limit sleep s r s' Hd H.
  { unfold depth_for in Hd. lia. }
  simpl in H.
  apply bind_inv in H. destruct H as [[e [H ->]] | [[rsp more] [s1 [Hp H]]]].
  { apply get_operations_page_obs in H. destruct H as [evs [saved [Ht [Hl Ho]]]].
    exists evs, saved. repeat split; auto. now apply ro_raise. }
  apply get_operations_page_obs in Hp. destruct Hp as [evs [saved [Ht [Hl Ho]]]].
  simpl in H. destruct more.
  2:{ apply ret_inv in H; destruct H; subst.
      exists evs, saved. repeat split; auto. eapply ro_last; eauto. }
  assert (Hc : continues (nextCount count limit) rsp = true).
  { inversion Ho; subst; auto. }
  destruct (continues_nextCount _ _ _ Hc) as [Hlt [Hn [cursor Hcur]]].
  apply bind_inv in H. destruct H as [[e [H ->]] | [u [s2 [Hs H]]]].
  { apply sleep_between_inv in H. destruct sleep as [| d |];
      try (destruct H; discriminate).
    destruct (negative d) eqn:Hneg; destruct H as [H ->]; [| discriminate].
    inversion H; subst.
    exists evs, saved. repeat split; auto. eapply ro_sleep_raise; eauto. }
  apply bind_inv in H. destruct H as [[e [H ->]] | [c [s3 [Hg H]]]].
  { apply lift_inv in H; destruct H as [H _]. rewrite Hcur in H. discriminate. }
  apply lift_inv in Hg; destruct Hg as [Hg ->].
  rewrite Hcur in Hg. inversion Hg; subst c; clear Hg.
  apply IH in H.
  2:{ unfold depth_for in *. unfold default_limit. lia. }
  destruct H as [evs' [saved' [Ht' [Hl' Ho']]]].
  assert (Hs2 : trace s2 = trace s1 ++ sleep_events sleep /\
                list_operations s2 = list_operations s1 /\
                match sleep with
                | SleepNumber d => negative d = false
                | _ => True
                end).
  { apply sleep_between_inv in Hs. destruct sleep as [| d |]; simpl.
    - destruct Hs as [_ ->]. rewrite app_nil_r. auto.
    - destruct (negative d); destruct Hs as [Hs ->]; [discriminate |].
      rewrite trace_log. auto.
    - destruct Hs as [_ ->]. rewrite app_nil_r. auto. }
  destruct Hs2 as [Hts [Hls Hneg]].
  exists (evs ++ sleep_events sleep ++ evs'), (saved ++ saved').
  rewrite Ht', Hl', Hts, Hls, Ht, Hl, map_app, <- !app_assoc.
  repeat split.
  eapply ro_next; eauto.
  rewrite Hts, Ht, <- app_assoc in Ho'. exact Ho'.
Qed.

Lemma get_operations_obs self count si limit sleep s r s' :
  get_operations env self count si limit sleep s = (r, s') ->
  exists evs saved,
    trace s' = trace s ++ evs /\
    list_operations s' = list_operations s ++ saved /\
    run_obs env self count si limit sleep (trace s) evs (map descr saved) r.
Proof. unfold get_operations. apply get_operations_rec_obs. lia. Qed.

(** What the constructor returns, read off the run. *)
Lemma Operations_obs self count sleep r tr :
  Operations env self count sleep = (r, tr) ->
  exists saved r0,
    run_obs env self count JNull default_limit sleep [] tr (map descr saved) r0 /\
    r = match r0 with inl e => inl e | inr _ => inr saved end.
Proof.
  unfold Operations.
  destruct (get_operations env self count JNull default_limit sleep fresh)
    as [r0 s'] eqn:H.
  apply get_operations_obs in H. destruct H as [evs [saved [Ht [Hl Ho]]]].
  simpl in Ht, Hl, Ho. subst evs. rewrite Hl.
  intros E. exists saved, r0.
  destruct r0; inversion E; subst; split; auto.
Qed.

(** *** Fetches and entries of a page *)

Lemma fetch_obs_fetches self tsd tsf si limit tr0 evs rd :
  fetch_obs env self tsd tsf si limit tr0 evs rd ->
  (count_events is_fetch evs <= 1)%nat /\
  forall data, rd = inr data ->
    count_events is_fetch evs = 1%nat /\
    flat_map (page_entries env) evs = entries_of_text env data.
Proof.
  intros H; inversion H; subst; unfold count_events; simpl;
    (split; [lia |]); intros data E; inversion E; subst;
    (split; [reflexivity |]); rewrite ?app_nil_r; try reflexivity.
  - match goal with Hs : status_code _ = 200 |- _ => rewrite Hs end.
    reflexivity.
  - match goal with Hs : status_code _ = 200 |- _ => rewrite Hs end.
    reflexivity.
Qed.

Lemma page_obs_fetches self count si limit tr0 evs ents r :
  page_obs env self count si limit tr0 evs ents r ->
  (count_events is_fetch evs <= 1)%nat.
Proof.
  intros H; inversion H; subst; try (unfold count_events; simpl; lia);
    eapply fetch_obs_fetches; eauto.
Qed.

Lemma page_obs_entries self count si limit tr0 evs ents p :
  page_obs env self count si limit tr0 evs ents (inr p) ->
  count_events is_fetch evs = 1%nat /\
  ents = flat_map (page_entries env) evs.
Proof.
  intros H; inversion H; subst.
  match goal with Hf : fetch_obs _ _ _ _ _ _ _ _ _ |- _ =>
    destruct (fetch_obs_fetches _ _ _ _ _ _ _ _ Hf) as [_ Hd];
    destruct (Hd _ eq_refl) as [Hc He]
  end.
  split; [exact Hc |]. rewrite He. unfold entries_of_text.
  repeat match goal with Hx : _ = inr _ |- _ => rewrite Hx; clear Hx end.
  reflexivity.
Qed.

Lemma flat_map_sleep_events sleep :
  flat_map (page_entries env) (sleep_events sleep) = [].
Proof. destruct sleep; reflexivity. Qed.

Lemma count_fetch_sleep_events sleep :
  count_events is_fetch (sleep_events sleep) = 0%nat.
Proof. destruct sleep; reflexivity. Qed.

Lemma count_events_app p l1 l2 :
  count_events p (l1 ++ l2) = (count_events p l1 + count_events p l2)%nat.
Proof. unfold count_events. now rewrite filter_app, length_app. Qed.

(** A run that returns appended exactly the entries of its pages. *)
Lemma run_obs_entries self count si limit sleep tr0 evs ents r :
  run_obs env self count si limit sleep tr0 evs ents r ->
  r = inr tt ->
  ents = flat_map (page_entries env) evs.
Proof.
  induction 1; intros E; try discriminate.
  - eapply page_obs_entries; eauto.
  - rewrite !flat_map_app, flat_map_sleep_events. simpl.
    rewrite IHrun_obs by assumption.
    f_equal. eapply page_obs_entries; eauto.
Qed.

End Pages.

(** ** The page requests *)

Section Requests.

Variable env : Env.

Lemma operations_url_count self tsd tsf si limit u :
  operations_url env self tsd tsf si limit = inr u ->
  param "count" (query u) = Some (str_of_int limit).
Proof.
  unfold operations_url.
  destruct si; intros H; inversion H; subst; reflexivity.
Qed.

(** The requests of a page are built by [operations_url], with the cursor
    and the limit of the call. *)
Lemma fetch_obs_get self tsd tsf si limit tr0 evs rd u v ck resp :
  fetch_obs env self tsd tsf si limit tr0 evs rd ->
  In (EvGet u v ck resp) evs ->
  operations_url env self tsd tsf si limit = inr u.
Proof.
  intros H Hin; inversion H; subst; simpl in Hin;
    repeat (destruct Hin as [Hin | Hin]; [inversion Hin; subst; auto |]);
    try contradiction; try discriminate.
Qed.

Lemma page_obs_get self count si limit tr0 evs ents r u v ck resp :
  page_obs env self count si limit tr0 evs ents r ->
  In (EvGet u v ck resp) evs ->
  exists tsd tsf, operations_url env self tsd tsf si limit = inr u.
Proof.
  intros H Hin; inversion H; subst; try contradiction;
    eauto using fetch_obs_get.
Qed.

Lemma sleep_events_get sleep u v ck resp :
  ~ In (EvGet u v ck resp) (sleep_events sleep).
Proof. destruct sleep; simpl; intuition discriminate. Qed.

Lemma run_obs_count_param self count si limit sleep tr0 evs ents r :
  run_obs env self count si limit sleep tr0 evs ents r ->
  limit = default_limit ->
  forall u v ck resp, In (EvGet u v ck resp) evs ->
    param "count" (query u) = Some (str_of_int default_limit).
Proof.
  induction 1; intros El u v ck resp Hin; subst limit;
    try (edestruct page_obs_get as [tsd [tsf Hu]]; eauto;
         eapply operations_url_count; eauto; fail).
  apply in_app_or in Hin. destruct Hin as [Hin | Hin].
  - edestruct page_obs_get as [tsd [tsf Hu]]; eauto.
    eapply operations_url_count; eauto.
  - apply in_app_or in Hin. destruct Hin as [Hin | Hin].
    + exfalso. eapply sleep_events_get; eauto.
    + eapply IHrun_obs; eauto.
Qed.

(** The [count] parameter of every page request of a
    windowed retrieval is the page size limit, 30, whatever count the
    caller asked for: the requested count is not sent to the server. *)
Theorem count_parameter_is_the_limit self count sleep r tr u v ck resp :
  Operations env self count sleep = (r, tr) ->
  In (EvGet u v ck resp) tr ->
  param "count" (query u) = Some (str_of_int default_limit).
Proof.
  intros H Hin. apply Operations_obs in H.
  destruct H as [saved [r0 [Ho _]]].
  eapply run_obs_count_param; eauto.
Qed.

(** C4.  A page request built with a continuation cursor carries the
    cursor as [startIndex] and no [dateFin]; a page request built without
    a cursor (the first page) carries [dateFin] and no [startIndex]. *)
Theorem cursor_replaces_end_date self tsd tsf si limit u :
  operations_url env self tsd tsf si limit = inr u ->
  match si with
  | JNull =>
      param "dateFin" (query u) = Some (str_of_int tsf) /\
      param "startIndex" (query u) = None
  | JStr cursor =>
      param "startIndex" (query u) = Some (quote env cursor) /\
      param "dateFin" (query u) = None
  | _ => False
  end.
Proof.
  unfold operations_url.
  destruct si; intros H; inversion H; subst; split; reflexivity.
Qed.

End Requests.

(** ** The entries returned *)

Section Entries.

Variable env : Env.

Lemma page_obs_more self count si limit tr0 evs ents rsp more :
  page_obs env self count si limit tr0 evs ents (inr (rsp, more)) ->
  more = continues (nextCount count limit) rsp.
Proof. intros H; inversion H; subst; reflexivity. Qed.

Lemma continues_small count limit rsp :
  count <= limit -> continues (nextCount count limit) rsp = false.
Proof.
  intros H. unfold continues, nextCount.
  destruct (Z.gtb_spec count limit); [lia |].
  destruct rsp; reflexivity.
Qed.

(** C7.  The sequence a windowed retrieval returns is the concatenation,
    in fetch order, of the entry lists of the pages it fetched. *)
Theorem returned_is_concatenation_of_pages self count sleep ops tr :
  Operations env self count sleep = (inr ops, tr) ->
  map descr ops = flat_map (page_entries env) tr.
Proof.
  intros H. apply Operations_obs in H.
  destruct H as [saved [r0 [Ho E]]].
  destruct r0 as [e | []]; inversion E; subst.
  eapply run_obs_entries; eauto.
Qed.

(** C6.  When the requested count is smaller than the page size, the
    retrieval fetches once, and returns every entry of that page, however
    many they are. *)
Theorem small_count_fetches_one_page self count si limit sleep r s' :
  count < limit ->
  get_operations env self count si limit sleep fresh = (r, s') ->
  (count_events is_fetch (trace s') <= 1)%nat /\
  (r = inr tt ->
   count_events is_fetch (trace s') = 1%nat /\
   map descr (list_operations s') = flat_map (page_entries env) (trace s')).
Proof.
  intros Hlt H. apply get_operations_obs in H.
  destruct H as [evs [saved [Ht [Hl Ho]]]]. simpl in Ht, Hl, Ho.
  rewrite Ht, Hl. clear Ht Hl.
  assert (Hno : forall rsp, continues (nextCount count limit) rsp = false)
    by (intros; apply continues_small; lia).
  inversion Ho; subst.
  - split; [eapply page_obs_fetches; eauto | discriminate].
  - edestruct page_obs_entries as [Hc He]; eauto.
    split; [lia |]. intros _. split; [exact Hc | exact He].
  - match goal with Hp : page_obs _ _ _ _ _ _ _ _ (inr (_, true)) |- _ =>
      apply page_obs_more in Hp; rewrite Hno in Hp; discriminate
    end.
  - match goal with Hp : page_obs _ _ _ _ _ _ _ _ (inr (_, true)) |- _ =>
      apply page_obs_more in Hp; rewrite Hno in Hp; discriminate
    end.
Qed.

End Entries.

(** ** Failed fetches *)

Lemma app_eq_mid {A : Type} (l1 l2 pre post : list A) (x : A) :
  l1 ++ l2 = pre ++ x :: post ->
  (exists mid, l1 = pre ++ x :: mid /\ post = mid ++ l2) \/
  (exists mid, pre = l1 ++ mid /\ l2 = mid ++ x :: post).
Proof.
  revert pre. induction l1 as [| a l1 IH]; intros pre H; simpl in H.
  - right. exists pre. auto.
  - destruct pre as [| b pre]; simpl in H; inversion H; subst.
    + left. exists l1. auto.
    + destruct (IH _ H2) as [[mid [E1 E2]] | [mid [E1 E2]]]; subst.
      * left. exists mid. auto.
      * right. exists mid. auto.
Qed.

Lemma singleton_eq_mid {A : Type} (a x : A) (pre post : list A) :
  [a] = pre ++ x :: post -> pre = [] /\ a = x /\ post = [].
Proof.
  destruct pre as [| b pre]; simpl; intros H; inversion H; subst; auto.
  destruct pre; discriminate.
Qed.

Section Failures.

Variable env : Env.

Lemma deferred_get_operations_obs self s r s' :
  deferred_get_operations env self s = (r, s') ->
  let ev := deferred_fetch env self (trace s) in
  match fetched_text "[error] get deferred operations: " ev with
  | inl e =>
      r = inl e /\ trace s' = trace s ++ [ev] /\
      list_operations s' = list_operations s
  | inr data =>
      trace s' = trace s ++ ev :: deferred_record self data /\
      exists saved,
        list_operations s' = list_operations s ++ saved /\
        match r with
        | inr _ => exists v, json_loads env data = inr v /\
                             py_iter v = inr (map descr saved)
        | inl _ => True
        end
  end.
Proof.
  intros H ev.
  assert (Hfetch : exists rd s1,
            (if useMocks (d_session self) then
               call_read_json_mock env (deferred_use_mock_file self)
             else
               r <- call_requests_get env (d_session self) (deferred_url self) ;;
               if negb (status_code r =? 200) then
                 raise (request_error "[error] get deferred operations: " r)
               else ret (text r)) s = (rd, s1) /\
            s1 = log s ev /\
            fetched_text "[error] get deferred operations: " ev = rd).
  { subst ev. unfold deferred_fetch.
    destruct (useMocks (d_session self)).
    - eexists; eexists. split; [reflexivity |]. split; reflexivity.
    - unfold bind, call_requests_get, emit, lift. simpl.
      destruct (requests_get env (trace s) (deferred_url self)) as [e | resp].
      + eexists; eexists. split; [reflexivity |]. split; reflexivity.
      + destruct (status_code resp =? 200); simpl;
          eexists; eexists; (split; [reflexivity |]); split; reflexivity. }
  destruct Hfetch as [rd [s1 [Hrun [Hs1 Hrd]]]].
  rewrite Hrd. clear Hrd.
  unfold deferred_get_operations in H.
  apply bind_inv in H. destruct H as [[e [H ->]] | [data [s1' [Hf H]]]].
  { rewrite Hrun in H. inversion H; subst. rewrite trace_log. auto. }
  rewrite Hrun in Hf. inversion Hf; subst rd s1'; clear Hf.
  apply bind_inv in H. destruct H as [[e [H E]] | [u [s2 [Hw H]]]].
  { destruct (writeMocks (d_session self)).
    - apply call_write_json_mock_inv in H. destruct H; discriminate.
    - apply ret_inv in H. destruct H; discriminate. }
  assert (Hs2 : trace s2 = trace s ++ ev :: deferred_record self data /\
                list_operations s2 = list_operations s).
  { unfold deferred_record. destruct (writeMocks (d_session self)).
    - apply call_write_json_mock_inv in Hw. destruct Hw as [_ ->]. subst s1.
      rewrite !trace_log, <- app_assoc. simpl. split; reflexivity.
    - apply ret_inv in Hw. destruct Hw as [_ ->]. subst s1.
      rewrite trace_log. split; reflexivity. }
  destruct Hs2 as [Ht2 Hl2].
  apply bind_inv in H. destruct H as [[e [H ->]] | [v [s3 [Hj H]]]].
  { apply lift_inv in H. destruct H as [_ ->]. split; [exact Ht2 |].
    exists []. rewrite app_nil_r. auto. }
  apply lift_inv in Hj. destruct Hj as [Hj ->].
  apply bind_inv in H. destruct H as [[e [H ->]] | [ops [s3 [Hi H]]]].
  { apply lift_inv in H. destruct H as [_ ->]. split; [exact Ht2 |].
    exists []. rewrite app_nil_r. auto. }
  apply lift_inv in Hi. destruct Hi as [Hi ->].
  apply for_each_saved in H. destruct H as [Ht3 [saved [Hl3 Hr]]].
  rewrite Ht3, Hl3, Hl2. split; [exact Ht2 |].
  exists saved. split; [reflexivity |].
  destruct r; [exact I |]. exists v. rewrite Hr. auto.
Qed.

(** A failed fetch ends its page: it is the only call of the page, and the
    page raises; for a request answered with a bad status, the exception
    is the one of line 197. *)
Lemma fetch_obs_failed self tsd tsf si limit tr0 evs rd ev :
  fetch_obs env self tsd tsf si limit tr0 evs rd ->
  In ev evs -> fetch_failed ev = true ->
  evs = [ev] /\
  rd = fetched_text "[error] get operations: " ev /\
  exists e, rd = inl e.
Proof.
  intros H Hin Hf; inversion H; subst; simpl in Hin;
    repeat (destruct Hin as [Hin | Hin]; [subst ev |]); try contradiction;
    simpl in Hf; try discriminate;
    try (match goal with
         | Hs : status_code _ = 200 |- _ => rewrite Hs in Hf; discriminate
         end).
  - repeat split; eauto.
  - repeat split; eauto.
  - split; [reflexivity |]. simpl.
    apply negb_true_iff in Hf. rewrite Hf. split; eauto.
Qed.

Lemma page_obs_failed self count si limit tr0 evs ents r ev :
  page_obs env self count si limit tr0 evs ents r ->
  In ev evs -> fetch_failed ev = true ->
  evs = [ev] /\
  exists e, r = inl e /\ fetched_text "[error] get operations: " ev = inl e.
Proof.
  intros H Hin Hf; inversion H; subst; try contradiction;
    match goal with
    | Ho : fetch_obs _ _ _ _ _ _ _ _ _ |- _ =>
        destruct (fetch_obs_failed _ _ _ _ _ _ _ _ _ Ho Hin Hf)
          as [E1 [E2 [e' E3]]]
    end; try discriminate.
  split; [exact E1 |]. exists e. split; [reflexivity |]. now rewrite <- E2.
Qed.

Lemma sleep_events_not_failed sleep ev :
  In ev (sleep_events sleep) -> fetch_failed ev = false.
Proof.
  destruct sleep; simpl; intros H; try contradiction.
  destruct H as [<- | []]. reflexivity.
Qed.

(** A failed fetch is the last call of the run, and the run raises. *)
Lemma run_obs_failed self count si limit sleep tr0 evs ents r :
  run_obs env self count si limit sleep tr0 evs ents r ->
  forall pre ev post,
    evs = pre ++ ev :: post -> fetch_failed ev = true ->
    post = [] /\
    exists e, r = inl e /\ fetched_text "[error] get operations: " ev = inl e.
Proof.
  induction 1; intros pre ev post E Hf.
  - assert (Hin : In ev evs) by (rewrite E; apply in_elt).
    destruct (page_obs_failed _ _ _ _ _ _ _ _ _ H Hin Hf) as [E1 [e' [E2 E3]]].
    rewrite E1 in E. apply singleton_eq_mid in E. destruct E as [_ [_ ->]].
    inversion E2; subst e'.
    split; [reflexivity |]. exists e. split; [reflexivity | exact E3].
  - assert (Hin : In ev evs) by (rewrite E; apply in_elt).
    destruct (page_obs_failed _ _ _ _ _ _ _ _ _ H Hin Hf) as [_ [e' [E2 _]]].
    discriminate.
  - assert (Hin : In ev evs) by (rewrite E; apply in_elt).
    destruct (page_obs_failed _ _ _ _ _ _ _ _ _ H Hin Hf) as [_ [e' [E2 _]]].
    discriminate.
  - apply app_eq_mid in E. destruct E as [[mid [E1 E2]] | [mid [E1 E2]]].
    + assert (Hin : In ev evs) by (rewrite E1; apply in_elt).
      destruct (page_obs_failed _ _ _ _ _ _ _ _ _ H Hin Hf) as [_ [e' [E3 _]]].
      discriminate.
    + apply app_eq_mid in E2. destruct E2 as [[mid' [E3 E4]] | [mid' [E3 E4]]].
      * assert (Hin : In ev (sleep_events sleep)) by (rewrite E3; apply in_elt).
        apply sleep_events_not_failed in Hin. congruence.
      * eapply IHrun_obs; eauto.
Qed.


(** C9.  When a fetch of a windowed retrieval fails, the first or a later
    one, the constructor raises: the caller gets the exception, and no
    list, whatever the earlier pages appended; the failed fetch is the
    last call. *)
Theorem failed_fetch_returns_no_list self count sleep r tr pre ev post :
  Operations env self count sleep = (r, tr) ->
  tr = pre ++ ev :: post ->
  fetch_failed ev = true ->
  (exists e, r = inl e) /\ post = [].
Proof.
  intros H E Hf.
  apply Operations_obs in H. destruct H as [saved [r0 [Ho ->]]].
  destruct (run_obs_failed _ _ _ _ _ _ _ _ _ Ho _ _ _ E Hf)
    as [-> [e [-> _]]].
  split; [now exists e | reflexivity].
Qed.

End Failures.

(** ** Replay *)

Section Replay.

Variable env : Env.

Lemma continues_envelope_only n rsp :
  envelope_only rsp -> continues n rsp = false.
Proof.
  intros [v ->]. unfold continues. simpl. now rewrite andb_false_r.
Qed.

(** A page of a replay is the one fixture read, and asks for no further
    page when the envelope has the one field. *)
Lemma page_obs_replay self count si limit tr0 evs ents r :
  page_obs env self count si limit tr0 evs ents r ->
  useMocks (session self) = true ->
  forall a b,
    timestamp env (date_start self) = inr a ->
    timestamp env (date_stop self) = inr b ->
    (forall d rsp,
        read_json_mock env (use_mock_file self) = inr d ->
        json_loads env (wrap_listeOperations d) = inr rsp ->
        envelope_only rsp) ->
    evs = [EvReadMock (use_mock_file self)
                      (read_json_mock env (use_mock_file self))] /\
    forall rsp, r <> inr (rsp, true).
Proof.
  intros H Hu a b Ha Hb Henv.
  inversion H; subst; try congruence;
    match goal with
    | Ho : fetch_obs _ _ _ _ _ _ _ _ _ |- _ =>
        inversion Ho; subst; try congruence
    end;
    match goal with
    | Hr : read_json_mock _ _ = _ |- _ => rewrite Hr
    end;
    (split; [reflexivity |]); intros rsp' E; try discriminate.
  inversion E; subst.
  match goal with
  | Hr : read_json_mock _ _ = inr ?d, Hj : json_loads _ _ = inr _ |- _ =>
      pose proof (Henv _ _ Hr Hj) as Hone
  end.
  apply (continues_envelope_only (nextCount count limit)) in Hone.
  congruence.
Qed.

(** In replay mode a windowed retrieval whose dates parse, and whose
    fixture put in the envelope decodes to a dict with the one key
    [listeOperations], makes one call whatever the requested count: the
    read of its fixture. *)
Theorem replay_reads_one_fixture self count sleep r tr a b :
  useMocks (session self) = true ->
  timestamp env (date_start self) = inr a ->
  timestamp env (date_stop self) = inr b ->
  (forall d rsp,
      read_json_mock env (use_mock_file self) = inr d ->
      json_loads env (wrap_listeOperations d) = inr rsp ->
      envelope_only rsp) ->
  Operations env self count sleep = (r, tr) ->
  tr = [EvReadMock (use_mock_file self)
                   (read_json_mock env (use_mock_file self))].
Proof.
  intros Hu Ha Hb Henv H.
  apply Operations_obs in H. destruct H as [saved [r0 [Ho _]]].
  inversion Ho; subst;
    match goal with
    | Hp : page_obs _ _ _ _ _ _ _ _ _ |- _ =>
        destruct (page_obs_replay _ _ _ _ _ _ _ _ Hp Hu a b Ha Hb Henv)
          as [Hev Hmore]
    end; try exact Hev;
    exfalso; eapply Hmore; reflexivity.
Qed.

Lemma fetch_obs_replay_events self tsd tsf si limit tr0 evs rd ev :
  fetch_obs env self tsd tsf si limit tr0 evs rd ->
  useMocks (session self) = true ->
  In ev evs ->
  is_get ev = false /\ is_write ev = false.
Proof.
  intros H Hu Hin; inversion H; subst; try congruence;
    simpl in Hin; destruct Hin as [<- | []]; auto.
Qed.

Lemma run_obs_replay_events self count si limit sleep tr0 evs ents r :
  run_obs env self count si limit sleep tr0 evs ents r ->
  useMocks (session self) = true ->
  forall ev, In ev evs -> is_get ev = false /\ is_write ev = false.
Proof.
  assert (Hpage : forall c si' l t evs' ents' r',
            page_obs env self c si' l t evs' ents' r' ->
            useMocks (session self) = true ->
            forall ev, In ev evs' -> is_get ev = false /\ is_write ev = false).
  { intros c si' l t evs' ents' r' H Hu ev Hin.
    inversion H; subst; try contradiction;
      eapply fetch_obs_replay_events; eauto. }
  induction 1; intros Hu ev Hin; try (eapply Hpage; eauto; fail).
  apply in_app_or in Hin. destruct Hin as [Hin | Hin];
    [eapply Hpage; eauto |].
  apply in_app_or in Hin. destruct Hin as [Hin | Hin]; [| eauto].
  destruct sleep; simpl in Hin; try contradiction.
  destruct Hin as [<- | []]. auto.
Qed.


End Replay.

(** ** Recording *)

Section Recording.

Variable env : Env.

Lemma well_recorded_app rt l1 : forall l2,
  well_recorded env rt l1 -> well_recorded env rt l2 ->
  well_recorded env rt (l1 ++ l2).
Proof.
  assert (Hn : forall n l1 l2, (List.length l1 <= n)%nat ->
            well_recorded env rt l1 -> well_recorded env rt l2 ->
            well_recorded env rt (l1 ++ l2)).
  { induction n as [| n IH]; intros k1 l2 Hlen H1 H2.
    - destruct k1; [exact H2 | simpl in Hlen; lia].
    - destruct k1 as [| ev k1]; [exact H2 |].
      simpl in *. destruct H1 as [Hw H1]. split; [exact Hw |].
      destruct (recorded env rt ev) as [w |].
      + destruct k1 as [| w' k1]; [contradiction |].
        destruct H1 as [E H1]. simpl. split; [exact E |].
        apply IH; auto. simpl in Hlen. lia.
      + apply IH; auto. lia. }
  intros l2. apply (Hn (List.length l1)). lia.
Qed.

Lemma fetch_obs_recorded self count sleep tsd tsf si limit tr0 evs rd :
  fetch_obs env self tsd tsf si limit tr0 evs rd ->
  well_recorded env (Windowed self count sleep) evs.
Proof.
  intros H; inversion H; subst; simpl;
    repeat match goal with
           | Hx : useMocks _ = _ |- _ => rewrite Hx; clear Hx
           | Hx : writeMocks _ = _ |- _ => rewrite Hx; clear Hx
           | Hx : status_code _ = 200 |- _ => rewrite Hx; clear Hx
           | Hx : status_code _ <> 200 |- _ =>
               apply Z.eqb_neq in Hx; rewrite Hx; clear Hx
           | Hx : json_loads _ _ = _ |- _ => rewrite Hx; clear Hx
           | Hx : py_getitem _ _ = _ |- _ => rewrite Hx; clear Hx
           end; simpl; rewrite ?andb_false_r; auto.
  all: try (destruct (writeMocks (session self)); simpl; auto; fail).
  split; [reflexivity |].
  destruct (json_loads env (text r)) as [e' | rsp]; auto.
  match goal with Hx : py_getitem _ _ = _ |- _ => rewrite Hx end. exact I.
Qed.

Lemma page_obs_recorded self count sleep c si limit tr0 evs ents r :
  page_obs env self c si limit tr0 evs ents r ->
  well_recorded env (Windowed self count sleep) evs.
Proof.
  intros H; inversion H; subst; simpl; auto;
    eapply fetch_obs_recorded; eauto.
Qed.

Lemma sleep_events_recorded rt sleep :
  well_recorded env rt (sleep_events sleep).
Proof.
  destruct sleep; simpl; auto.
  split; [reflexivity |].
  destruct rt as [self c sl | self]; simpl.
  - destruct (writeMocks (session self) && negb (useMocks (session self))); auto.
  - destruct (writeMocks (d_session self)); auto.
Qed.

Lemma run_obs_recorded self count sleep c si limit sl tr0 evs ents r :
  run_obs env self c si limit sl tr0 evs ents r ->
  well_recorded env (Windowed self count sleep) evs.
Proof.
  induction 1; try (eapply page_obs_recorded; eauto; fail).
  apply well_recorded_app; [eapply page_obs_recorded; eauto |].
  apply well_recorded_app; [apply sleep_events_recorded | exact IHrun_obs].
Qed.

(** In the trace of a retrieval every write is the record
    of the fetch just before it, and every fetch that has a record is
    followed by it at once.  Windowed: the record is the decoded
    [listeOperations] of a request answered 200, under the name with the
    write suffix, and there is one only when [writeMocks] is set and
    [useMocks] is not (a replay writes nothing).  Deferred: the record is
    the text of the fixture read or of the request answered 200, as text,
    under the name with the write suffix, whenever [writeMocks] is set,
    replay or not. *)
Theorem fetches_are_recorded rt :
  well_recorded env rt (snd (retrieve env rt)).
Proof.
  destruct rt as [self count sleep | self]; simpl.
  - destruct (Operations env self count sleep) as [r tr] eqn:H. simpl.
    apply Operations_obs in H. destruct H as [saved [r0 [Ho _]]].
    eapply run_obs_recorded; eauto.
  - destruct (deferred_get_operations env self fresh) as [r0 s'] eqn:H.
    assert (E : snd (DeferredOperations env self) = trace s')
      by (unfold DeferredOperations; rewrite H; destruct r0; reflexivity).
    rewrite E. clear E.
    apply deferred_get_operations_obs in H. simpl in H.
    unfold deferred_fetch, fetched_text, deferred_record in H.
    destruct (useMocks (d_session self)).
    + destruct (read_json_mock env (deferred_use_mock_file self)) as [e | d].
      * destruct H as [_ [-> _]]. simpl.
        destruct (writeMocks (d_session self)); auto.
      * destruct H as [-> _]. simpl.
        destruct (writeMocks (d_session self)); simpl; auto.
    + destruct (requests_get env [] (deferred_url self)) as [e | resp].
      * destruct H as [_ [-> _]]. simpl.
        destruct (writeMocks (d_session self)); auto.
      * destruct (status_code resp =? 200) eqn:Hs.
        -- destruct H as [-> _]. simpl.
           destruct (writeMocks (d_session self)); simpl; rewrite ?Hs; auto.
        -- destruct H as [_ [-> _]]. simpl.
           destruct (writeMocks (d_session self)); simpl; rewrite ?Hs; auto.
Qed.

End Recording.

(** ** Pagination *)

Section Pagination.

Variable env : Env.

Lemma fetch_obs_sleeps self tsd tsf si limit tr0 evs rd :
  fetch_obs env self tsd tsf si limit tr0 evs rd ->
  count_events is_sleep evs = 0%nat.
Proof. intros H; inversion H; reflexivity. Qed.

Lemma page_obs_sleeps self count si limit tr0 evs ents r :
  page_obs env self count si limit tr0 evs ents r ->
  count_events is_sleep evs = 0%nat.
Proof.
  intros H; inversion H; subst; try reflexivity;
    eapply fetch_obs_sleeps; eauto.
Qed.

Lemma run_obs_sleeps self count si limit sleep tr0 evs ents r :
  run_obs env self count si limit sleep tr0 evs ents r ->
  (count_events is_sleep evs <= List.length (sleep_events sleep))%nat.
Proof.
  induction 1;
    try (match goal with
         | Hp : page_obs _ _ _ _ _ _ _ _ _ |- _ =>
             rewrite (page_obs_sleeps _ _ _ _ _ _ _ _ Hp); lia
         end).
  rewrite !count_events_app, (page_obs_sleeps _ _ _ _ _ _ _ _ H).
  simpl in IHrun_obs.
  assert (count_events is_sleep (sleep_events sleep)
          <= List.length (sleep_events sleep))%nat
    by (destruct sleep; simpl; unfold count_events; simpl; lia).
  lia.
Qed.

(** The retrieval pauses at most once, whatever the number of pages: the
    nested calls are made with [sleep] left to its default. *)
Lemma at_most_one_pause self count sleep r tr :
  Operations env self count sleep = (r, tr) ->
  (count_events is_sleep tr <= 1)%nat.
Proof.
  intros H. apply Operations_obs in H. destruct H as [saved [r0 [Ho _]]].
  apply run_obs_sleeps in Ho.
  assert (List.length (sleep_events sleep) <= 1)%nat
    by (destruct sleep; simpl; lia).
  lia.
Qed.

Lemma ceil_div_small count : 0 < count <= 30 -> ceil_div count 30 = 1.
Proof.
  intros H. unfold ceil_div. Z.to_euclidean_division_equations. lia.
Qed.

Lemma ceil_div_step count :
  30 < count -> ceil_div count 30 = 1 + ceil_div (count - 30) 30.
Proof.
  intros H. unfold ceil_div. Z.to_euclidean_division_equations. lia.
Qed.

(** With the default page size a retrieval never fetches more than
    [ceil(count / 30)] pages (one page for a count of 30 or less). *)
Lemma run_obs_fetch_bound self count si limit sleep tr0 evs ents r :
  run_obs env self count si limit sleep tr0 evs ents r ->
  limit = default_limit ->
  (count_events is_fetch evs <= Z.to_nat (Z.max 1 (ceil_div count 30)))%nat.
Proof.
  induction 1; intros El;
    try (match goal with
         | Hp : page_obs _ _ _ _ _ _ _ _ _ |- _ =>
             pose proof (page_obs_fetches _ _ _ _ _ _ _ _ _ Hp); lia
         end).
  subst limit.
  pose proof (page_obs_fetches _ _ _ _ _ _ _ _ _ H) as Hone.
  apply page_obs_more in H. symmetry in H.
  apply continues_nextCount in H. destruct H as [Hlt [Hn _]].
  unfold default_limit in *.
  rewrite !count_events_app, count_fetch_sleep_events.
  specialize (IHrun_obs eq_refl). rewrite Hn in IHrun_obs.
  rewrite (ceil_div_step count) by lia.
  assert (1 <= ceil_div (count - 30) 30).
  { unfold ceil_div. Z.to_euclidean_division_equations. lia. }
  lia.
Qed.

Section AllPagesAnnounceMore.

Variable self : OperationsSelf.
Variables a b : Z.
Hypothesis live : useMocks (session self) = false.
Hypothesis start_ok : timestamp env (date_start self) = inr a.
Hypothesis stop_ok : timestamp env (date_stop self) = inr b.
Hypothesis server_more :
  forall tr u, exists resp,
    requests_get env tr u = inr resp /\ more_available env resp.

Lemma page_obs_more_available count si limit tr0 evs ents r :
  page_obs env self count si limit tr0 evs ents r ->
  (si = JNull \/ exists c, si = JStr c) ->
  count_events is_fetch evs = 1%nat /\
  exists kv c,
    r = inr (JObj kv, nextCount count limit >? 0) /\
    assoc "nextSetStartIndex" kv = Some (JStr c).
Proof.
  intros H Hsi.
  assert (Hurl : forall tsd tsf e,
            operations_url env self tsd tsf si limit <> inl e).
  { intros tsd tsf e. unfold operations_url.
    destruct Hsi as [-> | [c ->]]; discriminate. }
  assert (Hcont : forall kv c n,
            assoc "hasNext" kv = Some (JBool true) ->
            assoc "nextSetStartIndex" kv = Some (JStr c) ->
            continues n (JObj kv) = (n >? 0)).
  { intros kv c n H1 H2. unfold continues. rewrite H1, H2. simpl.
    now rewrite !andb_true_r. }
  inversion H; subst; try congruence;
    match goal with
    | Ho : fetch_obs _ _ _ _ _ _ _ _ _ |- _ =>
        inversion Ho; subst; try congruence;
        try (exfalso; eapply Hurl; eauto; fail)
    end;
    match goal with
    | Hg : requests_get env ?t ?u = _ |- _ =>
        destruct (server_more t u)
          as [resp' [Hresp [Hst [kv' [l' [ops' [c' [Hj [Hl [Hi [Hall [Hh Hc]]]]]]]]]]]];
        rewrite Hresp in Hg; inversion Hg; subst; clear Hg
    end; try congruence.
  - exfalso.
    match goal with
    | Hm : match json_loads _ _ with _ => _ end |- _ =>
        rewrite Hj in Hm; simpl in Hm; rewrite Hl in Hm; discriminate
    end.
  - exfalso.
    match goal with
    | Hm : decode_raises _ _ _ _ |- _ =>
        unfold decode_raises in Hm; rewrite Hj in Hm; simpl in Hm;
        rewrite Hl, Hi in Hm; destruct Hm as [bad [rest [Eo Hbad]]]
    end.
    rewrite Forall_forall in Hall.
    destruct (Hall bad) as [o Ho']; [rewrite Eo; apply in_elt | congruence].
  - exfalso.
    match goal with
    | Hm : decode_raises _ _ _ _ |- _ =>
        unfold decode_raises in Hm; rewrite Hj in Hm; simpl in Hm;
        rewrite Hl, Hi in Hm; destruct Hm as [bad [rest [Eo Hbad]]]
    end.
    rewrite Forall_forall in Hall.
    destruct (Hall bad) as [o Ho']; [rewrite Eo; apply in_elt | congruence].
  - split; [reflexivity |]. exists kv', c'.
    match goal with
    | Hm : json_loads _ _ = inr rsp |- _ =>
        rewrite Hj in Hm; inversion Hm; subst rsp
    end.
    rewrite (Hcont _ _ _ Hh Hc). auto.
  - split; [reflexivity |]. exists kv', c'.
    match goal with
    | Hm : json_loads _ _ = inr rsp |- _ =>
        rewrite Hj in Hm; inversion Hm; subst rsp
    end.
    rewrite (Hcont _ _ _ Hh Hc). auto.
Qed.

Lemma ceil_div_positive count : 0 < count -> 1 <= ceil_div count 30.
Proof.
  intros H. unfold ceil_div. Z.to_euclidean_division_equations. lia.
Qed.

(** When every response announces a further page, a call with the default
    page size, no pause, and room for [ceil(count / 30)] nested calls
    fetches exactly that many pages and returns. *)
Lemma get_operations_rec_fetch_count depth : forall count si sleep s r s',
  (Z.to_nat (ceil_div count 30) <= depth)%nat ->
  0 < count ->
  (si = JNull \/ exists c, si = JStr c) ->
  no_pause sleep ->
  get_operations_rec env depth self count si default_limit sleep s = (r, s') ->
  r = inr tt /\
  exists evs,
    trace s' = trace s ++ evs /\
    count_events is_fetch evs = Z.to_nat (ceil_div count 30).
Proof.
  induction depth as [| depth IH]; intros count si sleep s r s' Hd Hc Hsi Hp H.
  { pose proof (ceil_div_positive count Hc). lia. }
  simpl in H.
  apply bind_inv in H. destruct H as [[e [H ->]] | [[rsp more] [s1 [Hpg H]]]].
  { apply get_operations_page_obs in H.
    destruct H as [evs [saved [_ [_ Ho]]]].
    destruct (page_obs_more_available _ _ _ _ _ _ _ Ho Hsi)
      as [_ [kv [c [Er _]]]]. discriminate. }
  apply get_operations_page_obs in Hpg.
  destruct Hpg as [evs [saved [Ht [_ Ho]]]].
  destruct (page_obs_more_available _ _ _ _ _ _ _ Ho Hsi)
    as [Hone [kv [c [Er Hcur]]]].
  inversion Er; subst rsp more. clear Er.
  unfold default_limit, nextCount in *. simpl in H.
  destruct (Z.gtb_spec count 30) as [Hgt | Hle].
  - destruct (Z.gtb_spec (count - 30) 0) as [_ | Hn]; [| lia].
    apply bind_inv in H. destruct H as [[e [H ->]] | [u [s2 [Hs H]]]].
    { apply sleep_between_inv in H.
      destruct sleep as [| d |]; try contradiction; destruct H; discriminate. }
    assert (Es2 : s2 = s1).
    { apply sleep_between_inv in Hs.
      destruct sleep as [| d |]; try contradiction; now destruct Hs. }
    subst s2.
    apply bind_inv in H. destruct H as [[e [H ->]] | [cur [s3 [Hg H]]]].
    { apply lift_inv in H. destruct H as [H _]. simpl in H.
      rewrite Hcur in H. discriminate. }
    apply lift_inv in Hg. destruct Hg as [Hg ->]. simpl in Hg.
    rewrite Hcur in Hg. inversion Hg; subst cur. clear Hg.
    apply IH in H; try exact I; try lia; [| | right; eauto].
    + destruct H as [-> [evs' [Ht' Hn']]]. split; [reflexivity |].
      exists (evs ++ evs'). rewrite Ht', Ht, <- app_assoc.
      split; [reflexivity |].
      rewrite count_events_app, Hone, Hn', (ceil_div_step count) by lia.
      pose proof (ceil_div_positive (count - 30)). lia.
    + rewrite (ceil_div_step count) in Hd by lia.
      pose proof (ceil_div_positive (count - 30)). lia.
  - apply ret_inv in H. destruct H as [-> ->]. split; [reflexivity |].
    exists evs. split; [exact Ht |].
    rewrite Hone, ceil_div_small by lia. reflexivity.
Qed.

End AllPagesAnnounceMore.


(** C2, on a retrieval of three pages with a pause of one second.  The
    retrieval pauses between the first and the second request, and not
    between the second and the third. *)
Theorem pause_only_before_second_page :
  exists ops g1 g2 g3,
    Operations Sample.endless (Sample.an_account false false) 90
               (SleepNumber (Int 1))
    = (inr ops, [g1; EvSleep (Int 1); g2; g3]) /\
    is_get g1 = true /\ is_get g2 = true /\ is_get g3 = true.
Proof.
  do 4 eexists. split; [cbv; reflexivity |]. repeat split.
Qed.

(** C5, on a retrieval of 50 entries with pages of 10, every response
    announcing a further page.  The first call leaves 40 to fetch, the
    nested calls count pages of 30: three requests are made, not five. *)
Theorem page_size_lost_after_first_page :
  exists s',
    get_operations Sample.endless (Sample.an_account false false) 50 JNull 10
                   SleepNone fresh = (inr tt, s') /\
    count_events is_fetch (trace s') = 3%nat /\
    ceil_div 50 10 = 5.
Proof.
  eexists. split; [cbv; reflexivity |]. split; reflexivity.
Qed.

(** X12.  Whatever the server answers, a retrieval fetches at most
    [ceil(count / 30)] pages (one page for a count of 30 or less). *)
Lemma fetch_count_bound self count sleep r tr :
  Operations env self count sleep = (r, tr) ->
  (count_events is_fetch tr
   <= Z.to_nat (Z.max 1 (ceil_div count default_limit)))%nat.
Proof.
  intros H. apply Operations_obs in H. destruct H as [saved [r0 [Ho _]]].
  eapply run_obs_fetch_bound; eauto.
Qed.


End Pagination.

(** ** Sample runs *)

(** The text of the first request of a retrieval, as line 195 sends it. *)
Example first_request_text :
  exists r u v ck resp rest,
    Operations Sample.one_page (Sample.an_account false false) 10 SleepNone
    = (r, EvGet u v ck resp :: rest) /\
    url_text u
    = ("https://www.credit-agricole.fr/ca-paris/particulier/operations/"
       ++ "synthese/detail-comptes/jcr:content.n3.operations.json"
       ++ "?grandeFamilleCode=7&compteIdx=1&idDevise=EUR"
       ++ "&dateDebut=1704067200000&dateFin=1706745600000&count=30")%string.
Proof.
  do 6 eexists. split; [cbv; reflexivity |]. reflexivity.
Qed.


Lemma count_parameter_is_the_limit_witness :
  exists r tr u v ck resp,
    Operations Sample.one_page (Sample.an_account false false) 10 SleepNone
    = (r, tr) /\
    In (EvGet u v ck resp) tr /\
    param "count" (query u) = Some (str_of_int default_limit).
Proof.
  do 6 eexists. split; [cbv; reflexivity |]. split; [left; reflexivity |].
  eapply (count_parameter_is_the_limit
            Sample.one_page (Sample.an_account false false) 10 SleepNone);
    [cbv; reflexivity | left; reflexivity].
Defined.

(** C1, on a retrieval of 10 entries.  The claim has the first request
    ask for [min(10, 30)], 10 entries; the code asks for 30. *)
Lemma count_parameter_not_clamped :
  exists r u v ck resp rest,
    Operations Sample.one_page (Sample.an_account false false) 10 SleepNone
    = (r, EvGet u v ck resp :: rest) /\
    param "count" (query u) = Some "30"%string /\
    param "count" (query u) <> Some (str_of_int (Z.min 10 default_limit)).
Proof.
  do 6 eexists. split; [cbv; reflexivity |]. split; [reflexivity |].
  cbv. discriminate.
Qed.

Lemma cursor_replaces_end_date_witness :
  exists u,
    operations_url Sample.two_pages (Sample.an_account false false)
                   1704067200000 1706745600000 (JStr "X") 30 = inr u /\
    param "startIndex" (query u) = Some "X"%string /\
    param "dateFin" (query u) = None.
Proof.
  eexists. split; [cbv; reflexivity |].
  apply (cursor_replaces_end_date
           Sample.two_pages (Sample.an_account false false)
           1704067200000 1706745600000 (JStr "X") 30).
  cbv; reflexivity.
Defined.

(** Scenario B: 50 entries asked, a first page with cursor X, a second
    page with no further page: two requests, the second with the cursor
    and without the end date. *)
Example two_pages_second_request_has_cursor :
  exists ops g1 u v ck resp,
    Operations Sample.two_pages (Sample.an_account false false) 50 SleepNone
    = (inr ops, [g1; EvGet u v ck resp]) /\
    param "startIndex" (query u) = Some "X"%string /\
    param "dateFin" (query u) = None /\
    List.length ops = 3%nat.
Proof.
  do 6 eexists. split; [cbv; reflexivity |]. repeat split.
Qed.

Lemma returned_is_concatenation_of_pages_witness :
  exists ops tr,
    Operations Sample.two_pages (Sample.an_account false false) 50 SleepNone
    = (inr ops, tr) /\
    map descr ops = flat_map (page_entries Sample.two_pages) tr.
Proof.
  do 2 eexists. split; [cbv; reflexivity |].
  apply (returned_is_concatenation_of_pages
           Sample.two_pages (Sample.an_account false false) 50 SleepNone).
  cbv; reflexivity.
Defined.

Lemma small_count_fetches_one_page_witness :
  exists s',
    get_operations Sample.one_page (Sample.an_account false false) 1 JNull 30
                   SleepNone fresh = (inr tt, s') /\
    count_events is_fetch (trace s') = 1%nat /\
    map descr (list_operations s')
    = flat_map (page_entries Sample.one_page) (trace s') /\
    List.length (list_operations s') = 2%nat.
Proof.
  eexists. split; [cbv; reflexivity |].
  assert (H : 1 < 30) by lia.
  destruct (small_count_fetches_one_page
              Sample.one_page (Sample.an_account false false) 1 JNull 30
              SleepNone (inr tt) _ H eq_refl) as [_ Hp].
  destruct (Hp eq_refl) as [Hc He].
  split; [exact Hc |]. split; [exact He | reflexivity].
Defined.


Lemma failed_fetch_returns_no_list_witness :
  exists r g1 ev,
    Operations Sample.failing (Sample.an_account false false) 50 SleepNone
    = (r, [g1] ++ ev :: []) /\
    page_entries Sample.failing g1
    = [Sample.entry_json "a"; Sample.entry_json "b"] /\
    fetch_failed ev = true /\
    exists e, r = inl e.
Proof.
  do 3 eexists. split; [cbv; reflexivity |]. split; [reflexivity |].
  split; [reflexivity |].
  refine (proj1 (failed_fetch_returns_no_list Sample.failing
                   (Sample.an_account false false) 50 SleepNone
                   _ _ [_] _ [] _ eq_refl _)).
  - cbv; reflexivity.
  - reflexivity.
Defined.

Lemma replay_reads_one_fixture_witness :
  exists r tr,
    Operations Sample.one_page (Sample.an_account true false) 100 SleepNone
    = (r, tr) /\
    tr = [EvReadMock "account-7-1_operations_mock.json"
                     (inr (Sample.entries_text ["a"; "b"]%string))].
Proof.
  do 2 eexists. split; [cbv; reflexivity |].
  refine (replay_reads_one_fixture Sample.one_page
            (Sample.an_account true false) 100 SleepNone _ _
            1704067200 1706745600 _ _ _ _ _).
  - reflexivity.
  - reflexivity.
  - reflexivity.
  - intros d rsp Hr Hj. cbv in Hr. inversion Hr; subst d.
    cbv in Hj. inversion Hj; subst rsp. eexists; reflexivity.
  - cbv; reflexivity.
Defined.

(** C3, on two retrievals with [writeMocks] set.  A windowed replay
    fetches its page and writes nothing, where the deferred retrieval
    writes in replay mode too; the deferred retrieval hands the response
    text to the write, where the windowed one hands the decoded list. *)
Lemma recording_not_as_claimed :
  (exists ops ev,
     Operations Sample.one_page (Sample.an_account true true) 100 SleepNone
     = (inr ops, [ev]) /\
     is_fetch ev = true /\ fetch_failed ev = false /\ is_write ev = false) /\
  (exists ops ev name,
     DeferredOperations Sample.card_page (Sample.a_card false true)
     = (inr ops,
        [ev; EvWriteMock name
                (MockText (Sample.entries_text ["a"; "b"]%string))]) /\
     is_fetch ev = true /\ fetch_failed ev = false).
Proof.
  split.
  - do 2 eexists. split; [cbv; reflexivity |]. repeat split.
  - do 3 eexists. split; [cbv; reflexivity |]. repeat split.
Qed.

(** ** Iterating over the operations *)

Section Iterating.

Import Iteration.

(** A loop whose body leaves the object alone visits the operations from
    the position of [n] to the end, in order, and leaves [n] at the
    length of the list. *)
Lemma loop_fold {A : Type} (f : A -> Operation -> A) (l : list Operation) :
  forall fuel i acc,
    (i <= List.length l)%nat ->
    (List.length l - i < fuel)%nat ->
    loop fuel (fun op a o => (f a op, o)) acc {| held := l; n := Some i |}
    = (fold_left f (skipn i l) acc,
       {| held := l; n := Some (List.length l) |}).
Proof.
  induction fuel as [| fuel IH]; intros i acc Hi Hf; [lia |].
  simpl. unfold next. simpl.
  destruct (nth_error l i) as [op |] eqn:Hn.
  - assert (Hlt : (i < List.length l)%nat)
      by (apply nth_error_Some; congruence).
    rewrite IH by lia.
    destruct (nth_error_split l i Hn) as [l1 [l2 [El Hl1]]].
    subst l i. rewrite !skipn_app, !skipn_all, Nat.sub_diag.
    replace (S (List.length l1) - List.length l1)%nat with 1%nat by lia.
    rewrite skipn_all2 by lia. reflexivity.
  - apply nth_error_None in Hn.
    assert (i = List.length l) by lia. subst i.
    rewrite skipn_all. reflexivity.
Qed.

Lemma fold_left_snoc {A : Type} (l : list A) : forall acc,
  fold_left (fun a x => a ++ [x]) l acc = acc ++ l.
Proof.
  induction l as [| x l IH]; intros acc; simpl.
  - now rewrite app_nil_r.
  - rewrite IH, <- app_assoc. reflexivity.
Qed.

(** X1.  [list(obj)] is the list the object holds, in order, wherever an
    earlier loop left [n], and whether or not [__iter__] was ever called;
    it leaves [n] at the length, so that a further [__next__] raises
    [StopIteration] and changes nothing. *)
Theorem iteration_yields_every_operation self fuel :
  (len self < fuel)%nat ->
  to_list fuel self
  = (held self, {| held := held self; n := Some (len self) |}) /\
  next (snd (to_list fuel self)) = (StopIteration, snd (to_list fuel self)).
Proof.
  intros Hf.
  assert (E : to_list fuel self
              = (held self, {| held := held self; n := Some (len self) |})).
  { unfold to_list, for_in, iter, len in *.
    rewrite (loop_fold (fun a x => a ++ [x])) by (simpl; lia).
    rewrite fold_left_snoc. reflexivity. }
  split; [exact E |].
  rewrite E. simpl. unfold next, len. simpl.
  replace (nth_error (held self) (List.length (held self))) with (@None Operation);
    [reflexivity |].
  symmetry. apply nth_error_None. lia.
Qed.

Lemma fold_left_pairs (a : Operation) (l : list Operation) : forall acc,
  fold_left (fun acc' b => acc' ++ [(a, b)]) l acc = acc ++ map (pair a) l.
Proof.
  induction l as [| b l IH]; intros acc; simpl.
  - now rewrite app_nil_r.
  - rewrite IH, <- app_assoc. reflexivity.
Qed.

Lemma inner_loop_pairs (a : Operation) fuel acc o :
  (len o < fuel)%nat ->
  for_in fuel (fun b acc' o' => (acc' ++ [(a, b)], o')) acc o
  = (acc ++ map (pair a) (held o),
     {| held := held o; n := Some (len o) |}).
Proof.
  intros Hf. unfold for_in, iter, len in *.
  rewrite (loop_fold (fun acc' b => acc' ++ [(a, b)])) by (simpl; lia).
  rewrite fold_left_pairs. reflexivity.
Qed.

Lemma outer_loop_once {A : Type} (body : Operation -> A -> Obj -> A * Obj)
    (l : list Operation) first rest k acc :
  l = first :: rest ->
  (forall a acc' o, held o = l ->
     exists acc'', body a acc' o
                   = (acc'', {| held := l; n := Some (List.length l) |})) ->
  fst (loop (S k) body acc {| held := l; n := Some 0%nat |})
  = fst (body first acc {| held := l; n := Some 1%nat |}).
Proof.
  intros El Hbody. cbn [loop]. unfold next at 1. cbn [n held].
  rewrite El at 1. cbn [nth_error].
  destruct (Hbody first acc {| held := l; n := Some 1%nat |} eq_refl)
    as [acc'' E].
  rewrite E. cbn [fst].
  destruct k as [| k]; [reflexivity |].
  cbn [loop]. unfold next. cbn [n held].
  replace (nth_error l (List.length l)) with (@None Operation);
    [reflexivity |].
  symmetry. apply nth_error_None. lia.
Qed.

(** X2.  The iterator of an object is the object itself: a loop nested in a
    loop over the same object moves the one [n].  The inner loop runs to
    the end, and the outer loop stops after its first operation: the
    pairs are those of the first operation only. *)
Theorem nested_iteration_shares_position self fuel first rest :
  held self = first :: rest ->
  (len self < fuel)%nat ->
  fst (pairs fuel self) = map (pair first) (first :: rest).
Proof.
  intros Hl Hf. unfold pairs. unfold for_in at 1. unfold iter. rewrite Hl.
  assert (Hlen : (List.length (first :: rest) < fuel)%nat)
    by (unfold len in Hf; rewrite Hl in Hf; exact Hf).
  destruct fuel as [| k] eqn:Ek; [lia |]. rewrite <- Ek in *.
  replace (loop fuel) with (@loop (list (Operation * Operation)) (S k))
    by (now rewrite Ek).
  rewrite (outer_loop_once _ (first :: rest) first rest k [] eq_refl).
  - rewrite inner_loop_pairs by (unfold len; simpl in *; lia).
    reflexivity.
  - intros a acc' o Ho. eexists.
    rewrite inner_loop_pairs by (unfold len; rewrite Ho; lia).
    unfold len. rewrite Ho. reflexivity.
Qed.

End Iterating.

(** ** The records of a retrieval *)

Section Records.

Variable env : Env.

Lemma Operation_init_built d o : Operation_init d = inr o -> built o.
Proof.
  intros H. unfold built. now rewrite (Operation_init_descr d o H).
Qed.

Lemma built_fields o :
  built o ->
  py_getitem (descr o) "libelleOperation" = inr (libelleOp o) /\
  py_getitem (descr o) "dateOperation" = inr (dateOp o) /\
  py_getitem (descr o) "montant" = inr (montantOp o).
Proof.
  unfold built, Operation_init. intros H.
  destruct (py_getitem (descr o) "libelleOperation") as [e | l];
    [discriminate |].
  destruct (py_getitem (descr o) "dateOperation") as [e | d];
    [discriminate |].
  destruct (py_getitem (descr o) "montant") as [e | m]; [discriminate |].
  inversion H as [E]. rewrite <- E. simpl. auto.
Qed.

Lemma for_each_built ops : forall s r s',
  for_each ops (fun op => o <- lift (Operation_init op) ;; append_operation o) s
  = (r, s') ->
  Forall built (list_operations s) -> Forall built (list_operations s').
Proof.
  induction ops as [| op ops IH]; intros s r s' H Hb; simpl in H.
  - apply ret_inv in H. destruct H as [_ ->]. exact Hb.
  - apply bind_inv in H. destruct H as [[e [H _]] | [u [s1 [H1 H]]]].
    + apply bind_inv in H. destruct H as [[e' [H _]] | [o [s1 [_ H]]]].
      * apply lift_inv in H. destruct H as [_ ->]. exact Hb.
      * unfold append_operation in H. discriminate.
    + apply bind_inv in H1. destruct H1 as [[e' [_ E]] | [o [s2 [Ho H1]]]];
        [discriminate |].
      apply lift_inv in Ho. destruct Ho as [Ho ->].
      unfold append_operation in H1. inversion H1; subst s1; clear H1.
      apply IH in H; [exact H |]. simpl.
      apply Forall_app. split; [exact Hb |].
      constructor; [eapply Operation_init_built; eauto | constructor].
Qed.

Lemma has_next_page_state k rsp s r s' :
  has_next_page k rsp s = (r, s') -> s' = s.
Proof.
  unfold has_next_page, bind, lift, ret.
  destruct (k >? 0); [| intros H; inversion H; reflexivity].
  destruct (py_in "nextSetStartIndex" rsp) as [e | [|]];
    try (intros H; inversion H; reflexivity).
  destruct (py_in "hasNext" rsp) as [e | [|]];
    try (intros H; inversion H; reflexivity).
  destruct (py_getitem rsp "hasNext"); intros H; inversion H; reflexivity.
Qed.

Lemma get_operations_page_built self count si limit s r s' :
  get_operations_page env self count si limit s = (r, s') ->
  Forall built (list_operations s) -> Forall built (list_operations s').
Proof.
  unfold get_operations_page. intros H Hb.
  apply bind_inv in H. destruct H as [[e [H _]] | [a [s1 [Ha H]]]].
  { apply lift_inv in H. destruct H as [_ ->]. exact Hb. }
  apply lift_inv in Ha. destruct Ha as [_ ->].
  apply bind_inv in H. destruct H as [[e [H _]] | [b [s1 [Hb' H]]]].
  { apply lift_inv in H. destruct H as [_ ->]. exact Hb. }
  apply lift_inv in Hb'. destruct Hb' as [_ ->].
  apply bind_inv in H. destruct H as [[e [H _]] | [data [s1 [Hf H]]]].
  { apply fetch_data_obs in H. destruct H as [evs [Hl _]]. now rewrite Hl. }
  apply fetch_data_obs in Hf. destruct Hf as [evs [Hl _]].
  rewrite <- Hl in Hb. clear Hl.
  apply bind_inv in H. destruct H as [[e [H _]] | [rsp [s2 [Hj H]]]].
  { apply lift_inv in H. destruct H as [_ ->]. exact Hb. }
  apply lift_inv in Hj. destruct Hj as [_ ->].
  apply bind_inv in H. destruct H as [[e [H _]] | [l [s2 [Hg H]]]].
  { apply lift_inv in H. destruct H as [_ ->]. exact Hb. }
  apply lift_inv in Hg. destruct Hg as [_ ->].
  apply bind_inv in H. destruct H as [[e [H _]] | [ops [s2 [Hi H]]]].
  { apply lift_inv in H. destruct H as [_ ->]. exact Hb. }
  apply lift_inv in Hi. destruct Hi as [_ ->].
  apply bind_inv in H. destruct H as [[e [H _]] | [u [s2 [Hfe H]]]].
  { eapply for_each_built; eauto. }
  apply (for_each_built _ _ _ _ Hfe) in Hb.
  apply bind_inv in H. destruct H as [[e [H _]] | [more [s3 [Hm H]]]].
  { apply has_next_page_state in H. now subst s'. }
  apply has_next_page_state in Hm. subst s3.
  apply ret_inv in H. destruct H as [_ ->]. exact Hb.
Qed.

Lemma get_operations_rec_built self depth : forall count si limit sleep s r s',
  get_operations_rec env depth self count si limit sleep s = (r, s') ->
  Forall built (list_operations s) -> Forall built (list_operations s').
Proof.
  induction depth as [| depth IH]; intros count si limit sleep s r s' H Hb;
    simpl in H.
  { apply raise_inv in H. destruct H as [_ ->]. exact Hb. }
  apply bind_inv in H. destruct H as [[e [H _]] | [[rsp more] [s1 [Hp H]]]].
  { eapply get_operations_page_built; eauto. }
  apply (get_operations_page_built _ _ _ _ _ _ _ Hp) in Hb.
  simpl in H. destruct more.
  2:{ apply ret_inv in H. destruct H as [_ ->]. exact Hb. }
  assert (Hsl : forall r2 s2, sleep_between sleep s1 = (r2, s2) ->
                              list_operations s2 = list_operations s1).
  { intros r2 s2 Hs. apply sleep_between_inv in Hs.
    destruct sleep as [| d |]; try (destruct Hs as [_ ->]; reflexivity).
    destruct (negative d); destruct Hs as [_ ->]; reflexivity. }
  apply bind_inv in H. destruct H as [[e [H _]] | [u [s2 [Hs H]]]].
  { apply Hsl in H. now rewrite H. }
  apply Hsl in Hs. rewrite <- Hs in Hb.
  apply bind_inv in H. destruct H as [[e [H _]] | [c [s3 [Hg H]]]].
  { apply lift_inv in H. destruct H as [_ ->]. exact Hb. }
  apply lift_inv in Hg. destruct Hg as [_ ->].
  eapply IH; eauto.
Qed.

Lemma deferred_get_operations_built self s r s' :
  deferred_get_operations env self s = (r, s') ->
  Forall built (list_operations s) -> Forall built (list_operations s').
Proof.
  unfold deferred_get_operations. intros H Hb.
  apply bind_inv in H. destruct H as [[e [H _]] | [data [s1 [Hf H]]]].
  { destruct (useMocks (d_session self)).
    - apply call_read_json_mock_inv in H. destruct H as [_ ->]. exact Hb.
    - apply bind_inv in H. destruct H as [[e' [H _]] | [resp [s1 [Hg H]]]].
      + apply call_requests_get_inv in H. destruct H as [_ ->]. exact Hb.
      + apply call_requests_get_inv in Hg. destruct Hg as [_ ->].
        destruct (negb (status_code resp =? 200)).
        * apply raise_inv in H. destruct H as [_ ->]. exact Hb.
        * apply ret_inv in H. destruct H as [_ ->]. exact Hb. }
  assert (Hb1 : Forall built (list_operations s1)).
  { destruct (useMocks (d_session self)).
    - apply call_read_json_mock_inv in Hf. destruct Hf as [_ ->]. exact Hb.
    - apply bind_inv in Hf. destruct Hf as [[e' [_ E]] | [resp [s2 [Hg Hf]]]];
        [discriminate |].
      apply call_requests_get_inv in Hg. destruct Hg as [_ ->].
      destruct (negb (status_code resp =? 200)).
      + apply raise_inv in Hf. destruct Hf as [_ ->]. exact Hb.
      + apply ret_inv in Hf. destruct Hf as [_ ->]. exact Hb. }
  clear Hb Hf.
  apply bind_inv in H. destruct H as [[e [H _]] | [u [s2 [Hw H]]]].
  { destruct (writeMocks (d_session self)).
    - apply call_write_json_mock_inv in H. destruct H as [_ ->]. exact Hb1.
    - apply ret_inv in H. destruct H as [_ ->]. exact Hb1. }
  assert (Hb2 : Forall built (list_operations s2)).
  { destruct (writeMocks (d_session self)).
    - apply call_write_json_mock_inv in Hw. destruct Hw as [_ ->]. exact Hb1.
    - apply ret_inv in Hw. destruct Hw as [_ ->]. exact Hb1. }
  clear Hb1 Hw.
  apply bind_inv in H. destruct H as [[e [H _]] | [v [s3 [Hj H]]]].
  { apply lift_inv in H. destruct H as [_ ->]. exact Hb2. }
  apply lift_inv in Hj. destruct Hj as [_ ->].
  apply bind_inv in H. destruct H as [[e [H _]] | [ops [s3 [Hi H]]]].
  { apply lift_inv in H. destruct H as [_ ->]. exact Hb2. }
  apply lift_inv in Hi. destruct Hi as [_ ->].
  eapply for_each_built; eauto.
Qed.

(** X3.  Every record a retrieval returns, windowed or deferred, has for label,
    date and amount the fields [libelleOperation], [dateOperation] and
    [montant] of its own payload. *)
Theorem records_hold_their_payload_fields rt ops tr :
  retrieve env rt = (inr ops, tr) ->
  Forall (fun o =>
            py_getitem (descr o) "libelleOperation" = inr (libelleOp o) /\
            py_getitem (descr o) "dateOperation" = inr (dateOp o) /\
            py_getitem (descr o) "montant" = inr (montantOp o)) ops.
Proof.
  intros H.
  assert (Hb : Forall built ops).
  { destruct rt as [self count sleep | self]; simpl in H.
    - unfold Operations, get_operations in H.
      destruct (get_operations_rec env (depth_for count default_limit) self
                  count JNull default_limit sleep fresh) as [r0 s'] eqn:Hr.
      apply get_operations_rec_built in Hr; [| constructor].
      destruct r0; inversion H; subst. exact Hr.
    - unfold DeferredOperations in H.
      destruct (deferred_get_operations env self fresh) as [r0 s'] eqn:Hr.
      apply deferred_get_operations_built in Hr; [| constructor].
      destruct r0; inversion H; subst. exact Hr. }
  eapply Forall_impl; [| exact Hb]. intros o. apply built_fields.
Qed.

End Records.

(** ** From [as_json] back to the records *)

Section RoundTrip.

Variable env : Env.
Variable dumps : json -> string.

Lemma for_each_of_built ops : forall s,
  Forall built ops ->
  for_each (map descr ops)
           (fun op => o <- lift (Operation_init op) ;; append_operation o) s
  = (inr tt, {| list_operations := list_operations s ++ ops;
                trace := trace s |}).
Proof.
  induction ops as [| o ops IH]; intros s Hb; simpl.
  - unfold ret. rewrite app_nil_r. destruct s; reflexivity.
  - inversion Hb as [| o' ops' Ho Hops]; subst.
    unfold bind at 1. unfold bind at 1. unfold lift at 1.
    unfold built in Ho. rewrite Ho. unfold append_operation at 1.
    rewrite IH by assumption. simpl. rewrite <- app_assoc. reflexivity.
Qed.

Lemma bind_lift_inr {A B : Type} (x : result A) (a : A) (k : A -> M B) s :
  x = inr a -> bind (lift x) k s = k a s.
Proof. intros ->. reflexivity. Qed.

Lemma bind_ok {A B : Type} (c : M A) (a : A) (k : A -> M B) s s1 :
  c s = (inr a, s1) -> bind c k s = k a s1.
Proof. intros H. unfold bind. now rewrite H. Qed.

(** X4.  A fixture that holds the [as_json] of records, replayed by the
    deferred retrieval, gives back those records: the retrieval returns
    them, in order, after the one read.  ([json.loads] decodes what
    [json.dumps] wrote to the payload list.) *)
Theorem deferred_replay_of_as_json self ops :
  useMocks (d_session self) = true ->
  Forall built ops ->
  read_json_mock env (deferred_use_mock_file self) = inr (as_json dumps ops) ->
  json_loads env (as_json dumps ops) = inr (JArr (map descr ops)) ->
  DeferredOperations env self
  = (inr ops, EvReadMock (deferred_use_mock_file self)
                         (inr (as_json dumps ops))
              :: deferred_record self (as_json dumps ops)).
Proof.
  intros Hu Hb Hr Hj.
  unfold DeferredOperations, deferred_get_operations, deferred_record.
  rewrite Hu.
  rewrite (bind_ok _ (as_json dumps ops) _ fresh
             (log fresh (EvReadMock (deferred_use_mock_file self)
                                    (inr (as_json dumps ops)))))
    by (unfold call_read_json_mock, bind, emit, lift; now rewrite Hr).
  destruct (writeMocks (d_session self)); cbv iota.
  - rewrite (bind_ok (call_write_json_mock _ _) tt _ _ _ eq_refl).
    rewrite (bind_lift_inr _ _ _ _ Hj).
    rewrite (bind_lift_inr _ (map descr ops)) by reflexivity.
    rewrite for_each_of_built by assumption. reflexivity.
  - rewrite (bind_ok (ret tt) tt _ _ _ eq_refl).
    rewrite (bind_lift_inr _ _ _ _ Hj).
    rewrite (bind_lift_inr _ (map descr ops)) by reflexivity.
    rewrite for_each_of_built by assumption. reflexivity.
Qed.


End RoundTrip.

(** ** Edges of a retrieval *)

Section Edges.

Variable env : Env.

(** X6.  The dates are parsed before anything else, in replay mode too: when
    one of them does not parse, the constructor raises what the parser
    raised and no call is made, no fixture read and no request. *)
Theorem unparsed_date_makes_no_call self count sleep e :
  timestamp env (date_start self) = inl e \/
  (exists a, timestamp env (date_start self) = inr a /\
             timestamp env (date_stop self) = inl e) ->
  Operations env self count sleep = (inl e, []).
Proof.
  intros H. unfold Operations, get_operations, depth_for.
  cbn [get_operations_rec]. unfold get_operations_page.
  destruct H as [H | [a [Ha H]]].
  - unfold bind at 1. unfold bind at 1. unfold lift at 1. rewrite H.
    reflexivity.
  - unfold bind at 1. unfold bind at 1. unfold lift at 1. rewrite Ha.
    unfold bind at 1. unfold lift at 1. rewrite H. reflexivity.
Qed.

(** X7.  The deferred retrieval fetches once, whatever it is given and however
    it ends: its trace has one fetch, the first call. *)
Theorem deferred_fetches_once self :
  count_events is_fetch (snd (DeferredOperations env self)) = 1%nat /\
  exists ev rest,
    snd (DeferredOperations env self) = ev :: rest /\ is_fetch ev = true.
Proof.
  destruct (deferred_get_operations env self fresh) as [r0 s'] eqn:H.
  assert (E : snd (DeferredOperations env self) = trace s')
    by (unfold DeferredOperations; rewrite H; destruct r0; reflexivity).
  rewrite E. clear E.
  apply deferred_get_operations_obs in H. simpl in H.
  assert (Hev : is_fetch (deferred_fetch env self []) = true)
    by (unfold deferred_fetch; destruct (useMocks (d_session self));
        reflexivity).
  destruct (fetched_text "[error] get deferred operations: "
              (deferred_fetch env self [])) as [e | data].
  - destruct H as [_ [-> _]]. unfold count_events. simpl. rewrite Hev.
    split; [reflexivity | eauto].
  - destruct H as [-> _]. unfold count_events. simpl. rewrite Hev.
    unfold deferred_record.
    destruct (writeMocks (d_session self)); simpl; split; eauto.
Qed.

(** X8.  What the deferred retrieval returns is the decoded text of its fetch,
    entry by entry. *)
Theorem deferred_returns_the_decoded_list self ops tr :
  DeferredOperations env self = (inr ops, tr) ->
  exists ev data v,
    tr = ev :: deferred_record self data /\
    fetched_text "[error] get deferred operations: " ev = inr data /\
    json_loads env data = inr v /\
    py_iter v = inr (map descr ops).
Proof.
  unfold DeferredOperations.
  destruct (deferred_get_operations env self fresh) as [r0 s'] eqn:H.
  apply deferred_get_operations_obs in H. simpl in H.
  intros E. destruct r0 as [e | []]; inversion E; subst; clear E.
  destruct (fetched_text "[error] get deferred operations: "
              (deferred_fetch env self [])) as [e | data] eqn:Hft.
  - destruct H as [H _]. discriminate.
  - destruct H as [Ht [saved [Hl [v [Hj Hi]]]]]. simpl in Hl. subst saved.
    exists (deferred_fetch env self []), data, v. auto.
Qed.

(** X9.  A windowed replay whose fixture cannot be read raises what the store
    raised, after that one read. *)
Theorem windowed_replay_without_fixture self count sleep a b e :
  useMocks (session self) = true ->
  timestamp env (date_start self) = inr a ->
  timestamp env (date_stop self) = inr b ->
  read_json_mock env (use_mock_file self) = inl e ->
  Operations env self count sleep
  = (inl e, [EvReadMock (use_mock_file self) (inl e)]).
Proof.
  intros Hu Ha Hb Hr. unfold Operations, get_operations, depth_for.
  cbn [get_operations_rec]. unfold get_operations_page.
  unfold bind at 1. unfold bind at 1. unfold lift at 1. rewrite Ha.
  unfold bind at 1. unfold lift at 1. rewrite Hb.
  unfold bind at 1. unfold fetch_data. rewrite Hu.
  unfold bind at 1. unfold call_read_json_mock, bind, emit, lift.
  rewrite Hr. reflexivity.
Qed.

(** X10.  A deferred replay whose fixture cannot be read raises what the store
    raised, after that one read: nothing is written. *)
Theorem deferred_replay_without_fixture self e :
  useMocks (d_session self) = true ->
  read_json_mock env (deferred_use_mock_file self) = inl e ->
  DeferredOperations env self
  = (inl e, [EvReadMock (deferred_use_mock_file self) (inl e)]).
Proof.
  intros Hu Hr. unfold DeferredOperations, deferred_get_operations.
  rewrite Hu. unfold bind at 1. unfold call_read_json_mock, bind, emit, lift.
  rewrite Hr. reflexivity.
Qed.

(** X11.  [get_operations] only appends: called on an object that holds
    records, it leaves them in front of the list, in order, whether it
    returns or raises; the calls already made stay in front of the trace. *)
Theorem get_operations_only_appends self count si limit sleep s r s' :
  get_operations env self count si limit sleep s = (r, s') ->
  exists saved evs,
    list_operations s' = list_operations s ++ saved /\
    trace s' = trace s ++ evs.
Proof.
  intros H. apply get_operations_obs in H.
  destruct H as [evs [saved [Ht [Hl _]]]]. eauto.
Qed.

End Edges.

(** ** The sample script *)

(** Induction on a decoded value, through its lists and dicts. *)
Lemma json_induction (P : json -> Prop) :
  P JNull ->
  (forall b, P (JBool b)) ->
  (forall k, P (JNum k)) ->
  (forall s, P (JStr s)) ->
  (forall l, Forall P l -> P (JArr l)) ->
  (forall kv, Forall (fun p => P (snd p)) kv -> P (JObj kv)) ->
  forall v, P v.
Proof.
  intros Hnull Hbool Hnum Hstr Harr Hobj.
  fix IH 1. intros v. destruct v as [| b | k | s | l | kv].
  - exact Hnull.
  - apply Hbool.
  - apply Hnum.
  - apply Hstr.
  - apply Harr.
    exact ((fix all (l : list json) : Forall P l :=
              match l with
              | [] => Forall_nil P
              | x :: l' => Forall_cons x (IH x) (all l')
              end) l).
  - apply Hobj.
    exact ((fix all (kv : list (string * json))
              : Forall (fun p => P (snd p)) kv :=
              match kv with
              | [] => Forall_nil _
              | p :: kv' => Forall_cons p (IH (snd p)) (all kv')
              end) kv).
Qed.

Lemma convert_gives_type_structure data :
  type_structure (convert_to_type_structure data).
Proof.
  induction data as [| b | k | s | l IH | kv IH] using json_induction;
    simpl; try constructor.
  - destruct k; constructor.
  - destruct l as [| x l]; [constructor |].
    inversion IH; subst. now constructor.
  - induction kv as [| p kv IHkv]; simpl; [constructor |].
    inversion IH; subst. constructor; [assumption | auto].
Qed.

(** X14.  The result of [convert_to_type_structure] is the type structure
    of its argument: a str gives the empty str, an int 0, a float 0.0,
    [None] gives [None], a bool gives the int 0 (the test for int comes
    first and a bool passes it), a list gives the structure of its first
    element alone, a dict gives the structures of its values under the
    same keys in the same order.  So the result holds no data of the
    argument other than the keys of its dicts. *)
Theorem type_structure_holds_no_data data :
  structure_of data (convert_to_type_structure data) /\
  type_structure (convert_to_type_structure data).
Proof.
  split; [| apply convert_gives_type_structure].
  induction data as [| b | k | s | l IH | kv IH] using json_induction;
    simpl; try constructor.
  - destruct k; constructor.
  - destruct l as [| x l]; [constructor |].
    inversion IH; subst. now constructor.
  - induction kv as [| p kv IHkv]; simpl; [constructor |].
    inversion IH; subst. constructor; [split; [reflexivity | assumption] |].
    auto.
Qed.

(** X15.  Converting a type structure again changes nothing. *)
Theorem convert_to_type_structure_idempotent data :
  convert_to_type_structure (convert_to_type_structure data)
  = convert_to_type_structure data.
Proof.
  induction data as [| b | k | s | l IH | kv IH] using json_induction;
    simpl; try reflexivity.
  - destruct k; reflexivity.
  - destruct l as [| x l]; [reflexivity |].
    inversion IH; subst. simpl. now do 2 f_equal.
  - f_equal. rewrite map_map. simpl.
    induction kv as [| p kv IHkv]; [reflexivity |].
    inversion IH; subst. simpl. f_equal; [now f_equal | auto].
Qed.

Lemma zeros_length k : String.length (zeros k) = k.
Proof. induction k; simpl; congruence. Qed.

Lemma zeros_chars k c : In c (list_ascii_of_string (zeros k)) -> c = "0"%char.
Proof.
  induction k as [| k IH]; simpl; [contradiction |].
  intros [H | H]; auto.
Qed.

Lemma digits_to_end_zeros k : digits_to_end (zeros k) = true.
Proof. induction k; simpl; auto. Qed.

(** X16.  A placeholder shows no digit of the identifier: the only digit it can
    hold is 0. *)
Theorem placeholder_shows_no_digit original_id c :
  In c (list_ascii_of_string (create_placeholder original_id)) ->
  is_digit c = true ->
  c = "0"%char.
Proof.
  unfold create_placeholder. destruct (all_digits original_id).
  - intros H _. eapply zeros_chars; eauto.
  - simpl. intros H Hd.
    repeat (destruct H as [H | H]; [subst c; discriminate Hd |]).
    contradiction.
Qed.

(** X17.  An identifier made of digits gets a placeholder of its own length,
    one made of anything else gets the fixed word; and the placeholder of
    a placeholder is that placeholder. *)
Theorem create_placeholder_idempotent original_id :
  create_placeholder (create_placeholder original_id)
  = create_placeholder original_id /\
  (all_digits original_id = true ->
   String.length (create_placeholder original_id) = String.length original_id).
Proof.
  unfold create_placeholder at 2 3 4.
  destruct (all_digits original_id) eqn:Hd.
  - split; [| intros _; apply zeros_length].
    unfold create_placeholder.
    destruct original_id as [| c s]; [discriminate |]. simpl String.length.
    simpl. rewrite digits_to_end_zeros. simpl. now rewrite zeros_length.
  - split; [reflexivity | discriminate].
Qed.

Lemma string_app_inj (p a b : string) :
  (p ++ a)%string = (p ++ b)%string -> a = b.
Proof.
  induction p as [| c p IH]; simpl; intros H; [exact H |].
  inversion H. auto.
Qed.

(** X18.  With several modes, two different modes get two different target
    directories under the same base (the mode names being relative
    paths). *)
Theorem modes_get_distinct_directories base_dir mode1 mode2 :
  starts_with_sep mode1 = false ->
  starts_with_sep mode2 = false ->
  mode1 <> mode2 ->
  get_target_dir base_dir mode1 false <> get_target_dir base_dir mode2 false.
Proof.
  intros H1 H2 Hne E. apply Hne.
  unfold get_target_dir, path_join in E. rewrite H1, H2 in E.
  destruct (match base_dir with
            | EmptyString => true
            | String _ _ => ends_with_sep base_dir
            end).
  - eapply string_app_inj; eauto.
  - apply string_app_inj in E. eapply (string_app_inj "/"); eauto.
Qed.

(** ** Sample runs of the further properties *)

Lemma fetch_count_bound_witness :
  exists r tr,
    Operations Sample.two_pages (Sample.an_account false false) 100 SleepNone
    = (r, tr) /\
    (count_events is_fetch tr <= 4)%nat.
Proof.
  do 2 eexists. split; [cbv; reflexivity |].
  exact (fetch_count_bound Sample.two_pages (Sample.an_account false false)
           100 SleepNone _ _ eq_refl).
Defined.

Lemma iteration_yields_every_operation_witness :
  Iteration.to_list 3
    {| Iteration.held := [sample_operation "a"; sample_operation "b"];
       Iteration.n := Some 1%nat |}
  = ([sample_operation "a"; sample_operation "b"],
     {| Iteration.held := [sample_operation "a"; sample_operation "b"];
        Iteration.n := Some 2%nat |}).
Proof.
  refine (proj1 (iteration_yields_every_operation
                   {| Iteration.held := [sample_operation "a";
                                         sample_operation "b"];
                      Iteration.n := Some 1%nat |} 3 _)).
  unfold Iteration.len. simpl. lia.
Defined.

Lemma nested_iteration_shares_position_witness :
  fst (Iteration.pairs 3
         {| Iteration.held := [sample_operation "a"; sample_operation "b"];
            Iteration.n := None |})
  = [(sample_operation "a", sample_operation "a");
     (sample_operation "a", sample_operation "b")].
Proof.
  refine (nested_iteration_shares_position
            {| Iteration.held := [sample_operation "a"; sample_operation "b"];
               Iteration.n := None |} 3 _ _ eq_refl _).
  unfold Iteration.len. simpl. lia.
Defined.

Lemma records_hold_their_payload_fields_witness :
  exists ops tr,
    retrieve Sample.two_pages
             (Windowed (Sample.an_account false false) 50 SleepNone)
    = (inr ops, tr) /\
    Forall (fun o =>
              py_getitem (descr o) "libelleOperation" = inr (libelleOp o) /\
              py_getitem (descr o) "dateOperation" = inr (dateOp o) /\
              py_getitem (descr o) "montant" = inr (montantOp o)) ops.
Proof.
  do 2 eexists. split; [cbv; reflexivity |].
  eapply (records_hold_their_payload_fields Sample.two_pages
            (Windowed (Sample.an_account false false) 50 SleepNone)).
  cbv; reflexivity.
Defined.

Lemma deferred_replay_of_as_json_witness :
  fst (DeferredOperations Sample.card_page (Sample.a_card true false))
  = inr [sample_operation "a"; sample_operation "b"].
Proof.
  rewrite (deferred_replay_of_as_json Sample.card_page sample_dumps
             (Sample.a_card true false)
             [sample_operation "a"; sample_operation "b"]).
  - reflexivity.
  - reflexivity.
  - repeat constructor.
  - reflexivity.
  - reflexivity.
Defined.


Lemma unparsed_date_makes_no_call_witness :
  Operations Sample.one_page
    {| session := Sample.a_session true false;
       compteIdx := "1"; grandeFamilleCode := "7";
       date_start := "2024-01-01"; date_stop := "01/02/2024" |}
    100 SleepNone
  = (inl ValueError, []).
Proof.
  apply unparsed_date_makes_no_call.
  right. exists 1704067200. split; reflexivity.
Defined.

Lemma deferred_returns_the_decoded_list_witness :
  exists ops tr ev data v,
    DeferredOperations Sample.card_page (Sample.a_card false false)
    = (inr ops, tr) /\
    tr = ev :: deferred_record (Sample.a_card false false) data /\
    fetched_text "[error] get deferred operations: " ev = inr data /\
    json_loads Sample.card_page data = inr v /\
    py_iter v = inr (map descr ops).
Proof.
  destruct (deferred_returns_the_decoded_list Sample.card_page
              (Sample.a_card false false)
              [sample_operation "a"; sample_operation "b"]
              (snd (DeferredOperations Sample.card_page
                      (Sample.a_card false false))))
    as [ev [data [v H]]]; [cbv; reflexivity |].
  exists [sample_operation "a"; sample_operation "b"].
  eexists. exists ev, data, v. split; [cbv; reflexivity | exact H].
Defined.

Lemma windowed_replay_without_fixture_witness :
  Operations Sample.one_page
    {| session := Sample.a_session true false;
       compteIdx := "2"; grandeFamilleCode := "7";
       date_start := "2024-01-01"; date_stop := "2024-02-01" |}
    100 SleepNone
  = (inl (OtherError "FileNotFoundError"),
     [EvReadMock "account-7-2_operations_mock.json"
                 (inl (OtherError "FileNotFoundError"))]).
Proof.
  exact (windowed_replay_without_fixture Sample.one_page
           {| session := Sample.a_session true false;
              compteIdx := "2"; grandeFamilleCode := "7";
              date_start := "2024-01-01"; date_stop := "2024-02-01" |}
           100 SleepNone 1704067200 1706745600
           (OtherError "FileNotFoundError")
           eq_refl eq_refl eq_refl eq_refl).
Defined.

Lemma deferred_replay_without_fixture_witness :
  DeferredOperations Sample.card_page
    {| d_session := Sample.a_session true true;
       d_compteIdx := "1"; d_grandeFamilleCode := "7"; d_carteIdx := "9999" |}
  = (inl (OtherError "FileNotFoundError"),
     [EvReadMock "card-9999_operations_mock.json"
                 (inl (OtherError "FileNotFoundError"))]).
Proof.
  exact (deferred_replay_without_fixture Sample.card_page
           {| d_session := Sample.a_session true true;
              d_compteIdx := "1"; d_grandeFamilleCode := "7";
              d_carteIdx := "9999" |}
           (OtherError "FileNotFoundError") eq_refl eq_refl).
Defined.

Lemma get_operations_only_appends_witness :
  exists r s' saved evs,
    get_operations Sample.failing (Sample.an_account false false) 50 JNull 30
                   SleepNone
                   {| list_operations := [sample_operation "z"];
                      trace := [EvSleep (Int 1)] |}
    = (r, s') /\
    list_operations s' = [sample_operation "z"] ++ saved /\
    trace s' = [EvSleep (Int 1)] ++ evs.
Proof.
  destruct (get_operations Sample.failing (Sample.an_account false false) 50
              JNull 30 SleepNone
              {| list_operations := [sample_operation "z"];
                 trace := [EvSleep (Int 1)] |}) as [r s'] eqn:H.
  destruct (get_operations_only_appends _ _ _ _ _ _ _ _ _ H)
    as [saved [evs [Hl Ht]]].
  exists r, s', saved, evs. auto.
Defined.

Lemma placeholder_shows_no_digit_witness :
  In "0"%char (list_ascii_of_string (create_placeholder "0612345678")) /\
  "0"%char = "0"%char.
Proof.
  split; [left; reflexivity |].
  apply (placeholder_shows_no_digit "0612345678" "0"%char);
    [left; reflexivity | reflexivity].
Defined.

Lemma modes_get_distinct_directories_witness :
  get_target_dir "./output" "json" false
  <> get_target_dir "./output" "types" false.
Proof.
  apply modes_get_distinct_directories;
    [reflexivity | reflexivity | discriminate].
Defined.

(** The target directories of the three modes under [./output], and the
    directory of a single mode. *)
Example target_directories :
  get_target_dir "./output" "json" false = "./output/json"%string /\
  get_target_dir "./output/" "types" false = "./output/types"%string /\
  get_target_dir "./output" "string" true = "./output"%string.
Proof. repeat split. Qed.

(** An identifier of digits, one with a letter, and the empty one. *)
Example placeholders :
  create_placeholder "0612345678" = "0000000000"%string /\
  create_placeholder "12A4" = "placeholder"%string /\
  create_placeholder EmptyString = "placeholder"%string.
Proof. repeat split. Qed.


